(** * ResumeBot: the resume normalization engine

    A shallow embedding of [src/config/writer/finalize_resume.py]
    (the converters from the tailored resume record to the JSON Resume
    document), with the properties of its parsers, and of the
    statements of [src/helper.py] that build a tailored entry and the
    text of a stored file.

    Python values are modelled as follows.
    - A [str] is the list of its Unicode code points.
    - A JSON-like value ([json.loads] output) is the inductive [value];
      a [dict] keeps its items in insertion order.
    - An exception is a constructor of [exn]; a function that can raise
      returns [result].
    - The facts of the Unicode character database are written out for
      Basic Latin (code points below 128) and for the white space
      class; what the database says about other code points is a field
      of the class [Unicode], so every theorem holds for any such
      database.  In the same way [json.loads], [json.dumps] and the
      [repr] of floats and containers are fields of [Builtins]. *)

From Stdlib Require Import String Ascii DecimalString SpecFloat.
From Stdlib Require Import List NArith ZArith Bool Lia.
Import ListNotations.

Set Implicit Arguments.

(** ** Strings *)

Definition codepoint := N.
Definition str := list codepoint.

(** [u "text"]: the [str] of an ASCII literal. *)
Definition u (s : string) : str := map N_of_ascii (list_ascii_of_string s).

Definition str_eqb (a b : str) : bool :=
  if list_eq_dec N.eq_dec a b then true else false.

(** Truth value of a [str]: [if s:] holds for a non-empty string. *)
Definition nonempty (A : Type) (l : list A) : bool :=
  match l with [] => false | _ :: _ => true end.

Local Open Scope N_scope.

(** [str.isspace] on one code point; also the class [\s] of [re] on
    [str] patterns ([Py_UNICODE_ISSPACE]). *)
Definition isspace (c : codepoint) : bool :=
  ((9 <=? c) && (c <=? 13)) || ((28 <=? c) && (c <=? 32))
  || (c =? 133) || (c =? 160) || (c =? 5760)
  || ((8192 <=? c) && (c <=? 8202))
  || (c =? 8232) || (c =? 8233) || (c =? 8239) || (c =? 8287)
  || (c =? 12288).

Fixpoint lstrip (s : str) : str :=
  match s with
  | c :: s' => if isspace c then lstrip s' else s
  | [] => []
  end.

Definition rstrip (s : str) : str := rev (lstrip (rev s)).

(** [s.strip()] *)
Definition strip (s : str) : str := rstrip (lstrip s).

(** [s.split(sep)] for a one-character separator: never empty, keeps
    empty fields. *)
Fixpoint split_char (sep : codepoint) (s : str) : list str :=
  match s with
  | [] => [[]]
  | c :: s' =>
      if c =? sep then [] :: split_char sep s'
      else match split_char sep s' with
           | p :: ps => (c :: p) :: ps
           | [] => [[c]]
           end
  end.

(** [s.split()]: fields separated by runs of white space, no empty
    field.  [cur] is the field being read, reversed. *)
Fixpoint split_ws_go (cur : str) (s : str) : list str :=
  match s with
  | [] => match cur with [] => [] | _ => [rev cur] end
  | c :: s' =>
      if isspace c then
        match cur with
        | [] => split_ws_go [] s'
        | _ => rev cur :: split_ws_go [] s'
        end
      else split_ws_go (c :: cur) s'
  end.

Definition split_ws (s : str) : list str := split_ws_go [] s.

(** [s.replace(a, b)] for one-character [a] and [b]. *)
Definition replace_char (a b : codepoint) (s : str) : str :=
  map (fun c => if c =? a then b else c) s.

Fixpoint starts_with (p s : str) : bool :=
  match p, s with
  | [], _ => true
  | a :: p', b :: s' => (a =? b) && starts_with p' s'
  | _ :: _, [] => false
  end.

(** [sub in s] *)
Fixpoint contains (sub s : str) : bool :=
  starts_with sub s
  || match s with [] => false | _ :: s' => contains sub s' end.

(** [s.split(sep, 1)]: cut at the first occurrence of [sep]. *)
Fixpoint split_once (sep s : str) : option (str * str) :=
  if starts_with sep s then Some ([], skipn (length sep) s)
  else match s with
       | [] => None
       | c :: s' =>
           match split_once sep s' with
           | Some (a, b) => Some (c :: a, b)
           | None => None
           end
       end.

Definition split_max1 (sep s : str) : list str :=
  match split_once sep s with
  | Some (a, b) => [a; b]
  | None => [s]
  end.

Definition comma : codepoint := 44.
Definition space : codepoint := 32.
Definition slash : codepoint := 47.
Definition hyphen : codepoint := 45.
Definition underscore : codepoint := 95.
Definition en_dash : codepoint := 8211.
Definition em_dash : codepoint := 8212.

(** ** Values *)

#[warnings="-register-all"]
Inductive value : Type :=
| VNone
| VBool (b : bool)
| VInt (z : Z)
| VFloat (f : spec_float)
| VStr (s : str)
| VList (l : list value)
| VDict (d : list (str * value)).

(** ** The part of [re] the program uses

    Every pattern of the program is a sequence of character classes,
    each taken once or under a greedy star ([\s+] is [\s\s*]); none of
    them matches the empty string.  [match_len re s] is the length of
    the match of [re] at the start of [s], found as the backtracking
    matcher finds it: a star takes as many characters as it can and
    gives them back one by one while the rest of the pattern fails. *)

Module Re.

Inductive atom : Type :=
| Chr (p : codepoint -> bool)
| Star (p : codepoint -> bool).

Definition regex := list atom.

Definition plus (p : codepoint -> bool) : regex := [Chr p; Star p].

Fixpoint star_len (p : codepoint -> bool) (k : str -> option nat)
    (s : str) : option nat :=
  match s with
  | c :: s' =>
      if p c then
        match star_len p k s' with
        | Some n => Some (S n)
        | None => k s
        end
      else k s
  | [] => k s
  end.

Fixpoint match_len (re : regex) : str -> option nat :=
  match re with
  | [] => fun _ => Some 0%nat
  | Chr p :: re' =>
      fun s =>
        match s with
        | c :: s' => if p c then option_map S (match_len re' s') else None
        | [] => None
        end
  | Star p :: re' => star_len p (match_len re')
  end.

(** [re.search(re, s)]: start and length of the leftmost match. *)
Fixpoint search (re : regex) (s : str) : option (nat * nat) :=
  match match_len re s with
  | Some n => Some (0%nat, n)
  | None =>
      match s with
      | [] => None
      | _ :: s' =>
          match search re s' with
          | Some (i, n) => Some (S i, n)
          | None => None
          end
      end
  end.

(** [re.search(re, s)] as a truth value. *)
Definition found (re : regex) (s : str) : bool :=
  match search re s with Some _ => true | None => false end.

(** [m.group(0)] *)
Definition group0 (s : str) (m : nat * nat) : str :=
  firstn (snd m) (skipn (fst m) s).

(** [re.split(re, s)] without a limit.  [skip] counts the characters of
    the current match still to pass over and [piece] is the field being
    read, reversed.  A match of length zero does not cut (the patterns
    of the program have none). *)
Fixpoint split_go (re : regex) (skip : nat) (piece : str) (s : str)
    : list str :=
  match s with
  | [] => [rev piece]
  | c :: s' =>
      match skip with
      | S k => split_go re k piece s'
      | O =>
          match match_len re s with
          | Some (S n) => rev piece :: split_go re n [] s'
          | _ => split_go re 0 (c :: piece) s'
          end
      end
  end.

Definition split (re : regex) (s : str) : list str := split_go re 0 [] s.

(** [re.sub(re, "", s)]: what is left between the matches. *)
Definition remove (re : regex) (s : str) : str := concat (split re s).

(** An ASCII lower-case letter [lo] of a pattern compiled with
    [re.IGNORECASE]: it matches the code points whose simple lower case
    is [lo] or one of the equivalents of [lo] in [sre_compile]. *)
Definition ignorecase (lo : codepoint) (x : codepoint) : bool :=
  (x =? lo) || (x =? lo - 32)
  || ((lo =? 105) && ((x =? 304) || (x =? 305)))
  || ((lo =? 107) && (x =? 8490))
  || ((lo =? 115) && (x =? 383)).

(** A pattern that is a literal ASCII word, under [re.IGNORECASE]. *)
Definition word_i (w : str) : regex := map (fun lo => Chr (ignorecase lo)) w.

End Re.

(** ** The Unicode character database and the built-ins

    [str.lower], [str.title], [\w] and [\d] read the Unicode character
    database.  For code points below 128 its answers are written out;
    for the others they are the fields of [Unicode].  The lower case of
    a code point may depend on where it stands (final sigma), hence the
    string and the index given to [lower_ext]. *)

Class Unicode : Type := {
  lower_ext : str -> nat -> codepoint -> str;
  title_ext : codepoint -> str;
  iscased_ext : codepoint -> bool;
  isalnum_ext : codepoint -> bool;
  isdecimal_ext : codepoint -> bool
}.

(** The exceptions the program can raise.  [JSONDecodeError],
    [ValueError] and [RecursionError] come from [json.loads] only: the
    first on a text that is not JSON, the other two on some texts that
    are (an integer of more digits than the interpreter converts, a
    nesting deeper than its stack). *)
Inductive exn : Type :=
| TypeError
| AttributeError
| JSONDecodeError
| ValueError
| RecursionError.

Inductive result (A : Type) : Type :=
| Ok (a : A)
| Raise (e : exn).
Arguments Raise {A} e.

Definition bind (A B : Type) (r : result A) (f : A -> result B) : result B :=
  match r with Ok a => f a | Raise e => Raise e end.

Notation "x <- r ;; k" := (bind r (fun x => k))
  (at level 61, r at next level, right associativity).

(** [repr_ext] is [str(v)] for a float, a list or a dict; [json_loads]
    is [json.loads], which returns the decoded value or raises, and
    [json_dumps] is [json.dumps(_, ensure_ascii=False, indent=2)]. *)
Class Builtins : Type := {
  repr_ext : value -> str;
  json_loads : str -> result value;
  json_dumps : value -> str
}.

Definition ascii_isupper (c : codepoint) : bool := (65 <=? c) && (c <=? 90).
Definition ascii_islower (c : codepoint) : bool := (97 <=? c) && (c <=? 122).
Definition ascii_isalpha (c : codepoint) : bool :=
  ascii_isupper c || ascii_islower c.
Definition ascii_isdigit (c : codepoint) : bool := (48 <=? c) && (c <=? 57).
Definition ascii_lower (c : codepoint) : codepoint :=
  if ascii_isupper c then c + 32 else c.
Definition ascii_upper (c : codepoint) : codepoint :=
  if ascii_islower c then c - 32 else c.

Section UnicodeFunctions.
Context {U : Unicode}.

(** [\d] *)
Definition isdecimal (c : codepoint) : bool :=
  if c <? 128 then ascii_isdigit c else isdecimal_ext c.

Definition isalnum (c : codepoint) : bool :=
  if c <? 128 then ascii_isalpha c || ascii_isdigit c else isalnum_ext c.

(** [\w] *)
Definition isword (c : codepoint) : bool := isalnum c || (c =? underscore).

Definition iscased (c : codepoint) : bool :=
  if c <? 128 then ascii_isalpha c else iscased_ext c.

Definition lower_at (whole : str) (i : nat) (c : codepoint) : str :=
  if c <? 128 then [ascii_lower c] else lower_ext whole i c.

Definition title_of (c : codepoint) : str :=
  if c <? 128 then [ascii_upper c] else title_ext c.

Fixpoint lower_from (whole : str) (i : nat) (s : str) : str :=
  match s with
  | [] => []
  | c :: s' => lower_at whole i c ++ lower_from whole (S i) s'
  end.

(** [s.lower()] *)
Definition lower (s : str) : str := lower_from s 0 s.

Fixpoint title_from (whole : str) (i : nat) (previous_is_cased : bool)
    (s : str) : str :=
  match s with
  | [] => []
  | c :: s' =>
      (if previous_is_cased then lower_at whole i c else title_of c)
      ++ title_from whole (S i) (iscased c) s'
  end.

(** [s.title()] *)
Definition title (s : str) : str := title_from s 0 false s.

End UnicodeFunctions.

(** The database restricted to Basic Latin: other code points have no
    case and are neither letters nor digits. *)
Definition basic_latin : Unicode := {|
  lower_ext := fun _ _ c => [c];
  title_ext := fun c => [c];
  iscased_ext := fun _ => false;
  isalnum_ext := fun _ => false;
  isdecimal_ext := fun _ => false
|}.

(** ** Truth values, [str()], dicts and iteration *)

Definition truthy (v : value) : bool :=
  match v with
  | VNone => false
  | VBool b => b
  | VInt z => negb (z =? 0)%Z
  | VFloat (S754_zero _) => false
  | VFloat _ => true
  | VStr s => nonempty s
  | VList l => nonempty l
  | VDict d => nonempty d
  end.

(** [a or b] *)
Definition py_or (a b : value) : value := if truthy a then a else b.

(** [str(v)] *)
Definition str_of {B : Builtins} (v : value) : str :=
  match v with
  | VStr s => s
  | VNone => u "None"
  | VBool true => u "True"
  | VBool false => u "False"
  | VInt z => u (NilEmpty.string_of_int (Z.to_int z))
  | _ => repr_ext v
  end.

Definition dict := list (str * value).

Fixpoint lookup (A : Type) (k : str) (d : list (str * A)) : option A :=
  match d with
  | [] => None
  | (k', v) :: d' => if str_eqb k' k then Some v else lookup k d'
  end.

(** [d.get(k)] *)
Definition get (d : dict) (k : str) : value :=
  match lookup k d with Some v => v | None => VNone end.

(** [d[k] = v] *)
Fixpoint setitem (d : dict) (k : str) (v : value) : dict :=
  match d with
  | [] => [(k, v)]
  | (k', v') :: d' =>
      if str_eqb k' k then (k', v) :: d' else (k', v') :: setitem d' k v
  end.

(** [for x in v]: the items a loop over [v] visits; a value that is not
    iterable raises [TypeError]. *)
Definition iter (v : value) : result (list value) :=
  match v with
  | VList l => Ok l
  | VStr s => Ok (map (fun c => VStr [c]) s)
  | VDict d => Ok (map (fun kv => VStr (fst kv)) d)
  | _ => Raise TypeError
  end.

(** A loop whose body updates [acc] and may raise. *)
Fixpoint for_each (A B : Type) (body : B -> A -> result B) (xs : list A)
    (acc : B) : result B :=
  match xs with
  | [] => Ok acc
  | x :: xs' => acc' <- body acc x ;; for_each body xs' acc'
  end.

(** The idiom [str(d.get(k) or "").strip()] of the converters. *)
Definition str_field {B : Builtins} (d : dict) (k : string) : str :=
  strip (str_of (py_or (get d (u k)) (VStr []))).

(** ** The leaf parsers *)

Definition MONTH_MAP : list (str * str) :=
  [ (u "jan", u "01"); (u "january", u "01");
    (u "feb", u "02"); (u "february", u "02");
    (u "mar", u "03"); (u "march", u "03");
    (u "apr", u "04"); (u "april", u "04");
    (u "may", u "05");
    (u "jun", u "06"); (u "june", u "06");
    (u "jul", u "07"); (u "july", u "07");
    (u "aug", u "08"); (u "august", u "08");
    (u "sep", u "09"); (u "sept", u "09"); (u "september", u "09");
    (u "oct", u "10"); (u "october", u "10");
    (u "nov", u "11"); (u "november", u "11");
    (u "dec", u "12"); (u "december", u "12") ].

Definition _parse_city_region (location : value) : str * str :=
  match location with
  | VStr location =>
      let parts :=
        map strip
          (filter (fun p => nonempty (strip p)) (split_char comma location)) in
      if negb (nonempty parts) then ([], [])
      else if (length parts =? 1)%nat then (nth 0 parts [], [])
      else (nth 0 parts [], nth 1 parts [])
  | _ => ([], [])
  end.

(** The result is [None] or a dict with the keys network, username and
    url.  Nothing in the [try] block can raise. *)
Definition _parse_link_profile {U : Unicode} (url : value) : value :=
  match url with
  | VStr url =>
      if negb (nonempty (strip url)) then VNone
      else
        let url := strip url in
        let lowered := lower url in
        let network :=
          if contains (u "linkedin.com") lowered then u "LinkedIn"
          else if contains (u "github.com") lowered then u "GitHub"
          else u "Profile" in
        let path := last (split_max1 (u "://") url) [] in
        let segments := filter (@nonempty _) (split_char slash path) in
        let username := if nonempty segments then last segments [] else [] in
        VDict [ (u "network", VStr network);
                (u "username", VStr username);
                (u "url", VStr url) ]
  | _ => VNone
  end.

(** The class of the pattern is written hyphen, hyphen, em dash: [re]
    reads the first hyphen as a literal that starts a range ending at
    the em dash, that is every code point from U+002D to U+2014. *)
Definition date_split_class (c : codepoint) : bool :=
  (hyphen <=? c) && (c <=? em_dash).

Definition _DATE_SPLIT_RE : Re.regex :=
  [Re.Star isspace; Re.Chr date_split_class; Re.Star isspace].

Section DateRangeParser.
Context {U : Unicode}.

Definition _parse_month_year (text : value) : str * str :=
  match text with
  | VStr text =>
      let text := strip text in
      if negb (nonempty text) then ([], [])
      else
        let tokens := split_ws (replace_char comma space text) in
        if (length tokens <? 2)%nat then ([], [])
        else
          let month_raw :=
            lower (Re.remove [Re.Chr (fun c => negb (isword c))]
                     (nth 0 tokens [])) in
          match Re.search (repeat (Re.Chr isdecimal) 4) text with
          | None => ([], [])
          | Some year_match =>
              let year := Re.group0 text year_match in
              match lookup month_raw MONTH_MAP with
              | Some month =>
                  if negb (nonempty month) then ([], []) else (year, month)
              | None => ([], [])
              end
          end
  | _ => ([], [])
  end.

(** [f"{y}-{m}" if y and m else ""] *)
Definition iso_of (ym : str * str) : str :=
  if nonempty (fst ym) && nonempty (snd ym)
  then fst ym ++ [hyphen] ++ snd ym else [].

Definition _parse_date_range (dates : value) : str * str :=
  match dates with
  | VStr dates =>
      let dates := strip dates in
      if negb (nonempty dates) then ([], [])
      else
        let parts := Re.split _DATE_SPLIT_RE dates in
        if negb (nonempty parts) then ([], [])
        else
          let start_raw := strip (nth 0 parts []) in
          let end_raw :=
            if (1 <? length parts)%nat then strip (nth 1 parts []) else [] in
          let start_iso := iso_of (_parse_month_year (VStr start_raw)) in
          let end_iso :=
            if nonempty end_raw
               && negb (Re.found (Re.word_i (u "present")) end_raw)
            then iso_of (_parse_month_year (VStr end_raw))
            else [] in
          (start_iso, end_iso)
  | _ => ([], [])
  end.

End DateRangeParser.

(** The pattern of [_split_degree_title], compiled with
    [re.IGNORECASE]. *)
Definition in_re : Re.regex :=
  Re.plus isspace ++ Re.word_i (u "in") ++ Re.plus isspace.

Definition _split_degree_title (title : value) : str * str :=
  match title with
  | VStr title =>
      let title := strip title in
      if negb (nonempty title) then ([], [])
      else
        let parts := Re.split in_re title in
        if (length parts =? 1)%nat then (title, [])
        else
          let study_type := strip (nth 0 parts []) in
          let area := strip (nth 1 parts []) in
          (study_type, area)
  | _ => ([], [])
  end.

(** ** The converters *)

Section Converters.
Context {U : Unicode} {B : Builtins}.

(** One turn of the loop of [_bullet_texts]. *)
Definition bullet_step (out : list str) (b : value) : list str :=
  match b with
  | VDict b =>
      match get b (u "text") with
      | VStr txt =>
          let txt := strip txt in
          if nonempty txt then out ++ [txt] else out
      | _ => out
      end
  | _ => out
  end.

Definition _bullet_texts (entry : dict) : result (list str) :=
  bullets <- iter (py_or (get entry (u "bullets")) (VList [])) ;;
  Ok (fold_left bullet_step bullets []).

(** [[str(t).strip() for t in tools if str(t).strip()]] *)
Definition tool_keywords (tools : value) : result (list str) :=
  items <- iter tools ;;
  Ok (map (fun t => strip (str_of t))
        (filter (fun t => nonempty (strip (str_of t))) items)).

(** [if cond: d[k] = v] *)
Definition set_if (cond : bool) (k : string) (v : value) (d : dict) : dict :=
  if cond then setitem d (u k) v else d.

Definition strs (l : list str) : value := VList (map VStr l).

Definition _convert_basics (basics : value) : dict :=
  let basics := match basics with VDict d => d | _ => [] end in
  let name := str_field basics "name" in
  let email := str_field basics "email" in
  let phone := str_field basics "phone" in
  let location_str := str_field basics "location" in
  let website := str_field basics "website" in
  let linkedin := str_field basics "linkedin" in
  let github := str_field basics "github" in
  let '(city, region) := _parse_city_region (VStr location_str) in
  let profiles :=
    fold_left
      (fun profiles url =>
         let p := _parse_link_profile (VStr url) in
         if truthy p then profiles ++ [p] else profiles)
      [linkedin; github] [] in
  let basics_out := [(u "name", VStr name)] in
  let basics_out := set_if (nonempty email) "email" (VStr email) basics_out in
  let basics_out := set_if (nonempty phone) "phone" (VStr phone) basics_out in
  let basics_out := set_if (nonempty website) "url" (VStr website) basics_out in
  let basics_out :=
    set_if (nonempty city || nonempty region) "location"
      (VDict [(u "city", VStr city); (u "region", VStr region)]) basics_out in
  let basics_out :=
    set_if (nonempty profiles) "profiles" (VList profiles) basics_out in
  basics_out.

(** One turn of the loop of [_convert_education]; [gpa] is read and
    not used. *)
Definition education_step (out : list value) (entry : value) : list value :=
  match entry with
  | VDict entry =>
      let name := str_field entry "name" in
      let title := str_field entry "title" in
      let dates := str_field entry "dates" in
      let location_str := str_field entry "location" in
      let '(study_type, area) := _split_degree_title (VStr title) in
      let '(start_date, end_date) := _parse_date_range (VStr dates) in
      let edu := [] in
      let edu := set_if (nonempty name) "institution" (VStr name) edu in
      let edu := set_if (nonempty area) "area" (VStr area) edu in
      let edu := set_if (nonempty study_type) "studyType" (VStr study_type) edu in
      let edu := set_if (nonempty start_date) "startDate" (VStr start_date) edu in
      let edu := set_if (nonempty end_date) "endDate" (VStr end_date) edu in
      let edu :=
        set_if (nonempty location_str) "location" (VStr location_str) edu in
      if nonempty edu then out ++ [VDict edu] else out
  | _ => out
  end.

Definition _convert_education (entries : value) : result (list value) :=
  items <- iter (py_or entries (VList [])) ;;
  Ok (fold_left education_step items []).

(** One turn of the loop of [_convert_experience]. *)
Definition experience_step (out : list value) (entry : value)
    : result (list value) :=
  match entry with
  | VDict entry =>
      let company := str_field entry "name" in
      let position := str_field entry "title" in
      let location_str := str_field entry "location" in
      let dates := str_field entry "dates" in
      let tools := py_or (get entry (u "tools")) (VList []) in
      let '(start_date, end_date) := _parse_date_range (VStr dates) in
      highlights <- _bullet_texts entry ;;
      let work := [] in
      let work := set_if (nonempty company) "name" (VStr company) work in
      let work := set_if (nonempty position) "position" (VStr position) work in
      let work :=
        set_if (nonempty location_str) "location" (VStr location_str) work in
      let work := set_if (nonempty start_date) "startDate" (VStr start_date) work in
      let work := set_if (nonempty end_date) "endDate" (VStr end_date) work in
      let work :=
        set_if (nonempty highlights) "highlights" (strs highlights) work in
      tool_keywords <- tool_keywords tools ;;
      let work :=
        set_if (nonempty tool_keywords) "keywords" (strs tool_keywords) work in
      Ok (if nonempty work then out ++ [VDict work] else out)
  | _ => Ok out
  end.

Definition _convert_experience (entries : value) : result (list value) :=
  items <- iter (py_or entries (VList [])) ;;
  for_each experience_step items [].

(** One turn of the loop of [_convert_projects]. *)
Definition project_step (out : list value) (entry : value)
    : result (list value) :=
  match entry with
  | VDict entry =>
      let name := str_field entry "name" in
      let dates := str_field entry "dates" in
      let tools := py_or (get entry (u "tools")) (VList []) in
      let '(start_date, end_date) := _parse_date_range (VStr dates) in
      highlights <- _bullet_texts entry ;;
      let proj := [] in
      let proj := set_if (nonempty name) "name" (VStr name) proj in
      let proj :=
        set_if (nonempty highlights) "highlights" (strs highlights) proj in
      let proj := set_if (nonempty start_date) "startDate" (VStr start_date) proj in
      let proj := set_if (nonempty end_date) "endDate" (VStr end_date) proj in
      tool_keywords <- tool_keywords tools ;;
      let proj :=
        set_if (nonempty tool_keywords) "keywords" (strs tool_keywords) proj in
      Ok (if nonempty proj then out ++ [VDict proj] else out)
  | _ => Ok out
  end.

Definition _convert_projects (entries : value) : result (list value) :=
  items <- iter (py_or entries (VList [])) ;;
  for_each project_step items [].

(** The keywords of one category of [_convert_skills].  Every element
    of a list has a [str()], so the comprehension cannot raise. *)
Definition skill_keywords (v : value) : list str :=
  match v with
  | VList value =>
      map (fun v => strip (str_of v))
        (filter (fun v => nonempty (strip (str_of v))) value)
  | _ =>
      map strip
        (filter (fun s => nonempty (strip s)) (split_char comma (str_of v)))
  end.

(** One turn of the loop of [_convert_skills]; a key of a JSON object
    is a [str], and [str(key)] is the key. *)
Definition skill_step (out : list value) (item : str * value) : list value :=
  let '(key, v) := item in
  match v with
  | VNone => out
  | _ =>
      let keywords := skill_keywords v in
      if negb (nonempty keywords) then out
      else
        let name := title (replace_char underscore space key) in
        out ++ [VDict [ (u "name", VStr name);
                        (u "level", VStr []);
                        (u "keywords", strs keywords) ]]
  end.

Definition _convert_skills (skills : value) : list value :=
  match skills with
  | VDict skills => fold_left skill_step skills []
  | _ => []
  end.

(** ** ResumeAssembler *)

Definition schema_uri : str :=
  u "https://raw.githubusercontent.com/jsonresume/resume-schema/v1.0.0/schema.json".

(** The dict [resume] that [to_json_resume] builds from the decoded
    input [data]; [data.get] of a value that is not a dict raises
    [AttributeError]. *)
Definition resume_of (data : value) : result value :=
  match data with
  | VDict data =>
      let basics_in := py_or (get data (u "basics")) (VDict []) in
      let education_in := py_or (get data (u "education")) (VList []) in
      let experience_in := py_or (get data (u "experience")) (VList []) in
      let projects_in := py_or (get data (u "projects")) (VList []) in
      let skills_in := py_or (get data (u "skills")) (VDict []) in
      let basics_out := _convert_basics basics_in in
      education_out <- _convert_education education_in ;;
      work_out <- _convert_experience experience_in ;;
      projects_out <- _convert_projects projects_in ;;
      let skills_out := _convert_skills skills_in in
      Ok (VDict [ (u "$schema", VStr schema_uri);
                  (u "basics", VDict basics_out);
                  (u "work", VList work_out);
                  (u "education", VList education_out);
                  (u "skills", VList skills_out);
                  (u "projects", VList projects_out) ])
  | _ => Raise AttributeError
  end.

Definition to_json_resume (modified_resume_json_str : str) : result str :=
  data <- json_loads modified_resume_json_str ;;
  resume <- resume_of data ;;
  Ok (json_dumps resume).

End Converters.

(** ** The words of the specification

    Definitions written after the specification, to be compared with
    the functions above. *)

(** The segments of a location: split on commas, trim, drop the empty
    ones. *)
Definition location_segments (s : str) : list str :=
  filter (@nonempty _) (map strip (split_char comma s)).

(** [after_in s]: when [s] begins with the word "in", in either case,
    with white space before and after it, what follows that white
    space. *)
Definition after_in (s : str) : option str :=
  match s with
  | c :: _ =>
      if isspace c then
        match lstrip s with
        | i :: n :: w :: r =>
            if Re.ignorecase 105 i && Re.ignorecase 110 n && isspace w
            then Some (lstrip r) else None
        | _ => None
        end
      else None
  | [] => None
  end.

(** The text before the first occurrence of the word and the text
    after it. *)
Fixpoint cut_in (s : str) : option (str * str) :=
  match after_in s with
  | Some r => Some ([], r)
  | None =>
      match s with
      | [] => None
      | c :: s' =>
          match cut_in s' with
          | Some (a, b) => Some (c :: a, b)
          | None => None
          end
      end
  end.

(** The degree title splitter as the specification words it: the area
    is all that follows the first occurrence. *)
Definition degree_first_cut (title : str) : str * str :=
  let t := strip title in
  match cut_in t with
  | Some (study, rest) => (study, rest)
  | None => (t, [])
  end.

(** The degree title splitter with every match of the pattern a cut:
    the area stops at the next match in what follows the first one.
    Matches do not overlap: the white space that ends a match is not
    read again as the beginning of the next. *)
Definition degree_two_fields (title : str) : str * str :=
  let t := strip title in
  match cut_in t with
  | Some (study, rest) =>
      (study, match cut_in rest with Some (area, _) => area | None => rest end)
  | None => (t, [])
  end.

(** [sub] occurs in [s]. *)
Definition substring (sub s : str) : Prop := exists a b, s = a ++ sub ++ b.

(** What follows the scheme of a URL: all that comes after the first
    "://", or the whole URL when it has none. *)
Definition after_scheme (url : str) : str :=
  match split_once (u "://") url with
  | Some (_, rest) => rest
  | None => url
  end.

(** The user name of a profile URL: the last non-empty segment between
    slashes of what follows the scheme, or the empty string. *)
Definition last_segment (url : str) : str :=
  last (filter (@nonempty _) (split_char slash (after_scheme url))) [].

(** A profile as [_parse_link_profile] returns it. *)
Definition profile (network username url : str) : value :=
  VDict [ (u "network", VStr network);
          (u "username", VStr username);
          (u "url", VStr url) ].

(** What the specification says of the profile of a URL [url] that is
    not empty: the network is chosen by the substrings of the
    lower-cased URL, the user name is its last segment. *)
Definition link_profile_post {U : Unicode} (result : value) (url : str)
    : Prop :=
  exists network,
    result = profile network (last_segment url) url
    /\ (substring (u "linkedin.com") (lower url) -> network = u "LinkedIn")
    /\ (~ substring (u "linkedin.com") (lower url) ->
        substring (u "github.com") (lower url) -> network = u "GitHub")
    /\ (~ substring (u "linkedin.com") (lower url) ->
        ~ substring (u "github.com") (lower url) -> network = u "Profile").

(** What the specification says of every URL string that is not
    empty: it is classified and emitted, with the URL as it was
    given. *)
Definition link_profile_claim {U : Unicode} (url : str) : Prop :=
  url <> [] -> link_profile_post (_parse_link_profile (VStr url)) url.

(** The keywords of a category: the elements of a sequence, or the
    fields between commas of a scalar, as trimmed strings without the
    empty ones. *)
Definition category_keywords {B : Builtins} (v : value) : list str :=
  match v with
  | VList l => filter (@nonempty _) (map (fun x => strip (str_of x)) l)
  | _ => filter (@nonempty _) (map strip (split_char comma (str_of v)))
  end.

(** The display name of a category. *)
Definition display_name {U : Unicode} (key : str) : str :=
  title (replace_char underscore space key).

(** The category of one item of the mapping, if it has one: an absent
    value and a value without keywords have none. *)
Definition skill_category {U : Unicode} {B : Builtins} (item : str * value)
    : list value :=
  match snd item with
  | VNone => []
  | v =>
      match category_keywords v with
      | [] => []
      | keywords =>
          [VDict [ (u "name", VStr (display_name (fst item)));
                   (u "level", VStr []);
                   (u "keywords", VList (map VStr keywords)) ]]
      end
  end.

(** The two-digit numbers of the months. *)
Definition month_numbers : list str :=
  [ u "01"; u "02"; u "03"; u "04"; u "05"; u "06";
    u "07"; u "08"; u "09"; u "10"; u "11"; u "12" ].

(** A year-month string: four decimal digits, a hyphen and the number
    of a month. *)
Definition year_month {U : Unicode} (s : str) : Prop :=
  exists y m,
    s = y ++ [hyphen] ++ m
    /\ length y = 4%nat
    /\ Forall (fun c => isdecimal c = true) y
    /\ In m month_numbers.

(** [a <= b] on strings, as Python compares them. *)
Fixpoint str_leb (a b : str) : bool :=
  match a, b with
  | [], _ => true
  | _ :: _, [] => false
  | x :: a', y :: b' => (x <? y) || ((x =? y) && str_leb a' b')
  end.

(** Text of the form "Mon YYYY": a month word of the table, in any
    case, a space and four digits. *)
Definition mon_yyyy (s : str) : Prop :=
  exists mon yyyy,
    s = mon ++ [space] ++ yyyy
    /\ In (map ascii_lower mon) (map fst MONTH_MAP)
    /\ length yyyy = 4%nat
    /\ Forall (fun c => ascii_isdigit c = true) yyyy.

(** Text of the form "Mon YYYY - Mon YYYY". *)
Definition mon_yyyy_range (s : str) : Prop :=
  exists a b, s = a ++ u " - " ++ b /\ mon_yyyy a /\ mon_yyyy b.

(** What the specification says of the date range parser on such a
    text. *)
Definition date_range_claim {U : Unicode} (s : str) : Prop :=
  mon_yyyy_range s ->
  year_month (fst (_parse_date_range (VStr s)))
  /\ year_month (snd (_parse_date_range (VStr s)))
  /\ str_leb (fst (_parse_date_range (VStr s)))
       (snd (_parse_date_range (VStr s))) = true.

(** A value without an empty part: no [None], no empty string, list
    or dict, down to the leaves. *)
Fixpoint filled (v : value) : bool :=
  match v with
  | VNone => false
  | VStr s => nonempty s
  | VList l => nonempty l && forallb filled l
  | VDict d => nonempty d && forallb (fun kv => filled (snd kv)) d
  | _ => true
  end.

(** The document of the assembler: exactly the six top-level keys, the
    last four with lists. *)
Definition document (basics : dict) (work education skills projects : list value)
    : value :=
  VDict [ (u "$schema", VStr schema_uri);
          (u "basics", VDict basics);
          (u "work", VList work);
          (u "education", VList education);
          (u "skills", VList skills);
          (u "projects", VList projects) ].

(** The invariant of the specification: apart from the name of the
    basics every field of the document is filled. *)
Definition all_filled (doc : value) : Prop :=
  exists basics work education skills projects name rest,
    doc = document basics work education skills projects
    /\ basics = (u "name", VStr name) :: rest
    /\ forallb (fun kv => filled (snd kv)) rest = true
    /\ forallb filled work = true
    /\ forallb filled education = true
    /\ forallb filled skills = true
    /\ forallb filled projects = true.

(** A string that is not empty. *)
Definition is_text (v : value) : bool :=
  match v with VStr s => nonempty s | _ => false end.

(** A list that is not empty, of strings that are not empty. *)
Definition is_texts (v : value) : bool :=
  match v with VList l => nonempty l && forallb is_text l | _ => false end.

(** The keys of an entry that hold a list. *)
Definition list_key (k : str) : bool :=
  str_eqb k (u "highlights") || str_eqb k (u "keywords").

(** A field of an entry of work, education or projects: under
    highlights and keywords a list of strings, under any other key a
    string, and nothing empty. *)
Definition entry_field (kv : str * value) : bool :=
  if list_key (fst kv) then is_texts (snd kv) else is_text (snd kv).

(** An entry of work, education or projects: a dict that is not empty,
    of such fields. *)
Definition is_entry (v : value) : bool :=
  match v with
  | VDict d => nonempty d && forallb entry_field d
  | _ => false
  end.

(** A category of the skills: exactly a name, which is a string, the
    empty level and keywords, a list of strings with nothing empty. *)
Definition is_skill (v : value) : bool :=
  match v with
  | VDict [(k1, VStr _); (k2, VStr level); (k3, keywords)] =>
      str_eqb k1 (u "name") && str_eqb k2 (u "level")
      && str_eqb k3 (u "keywords")
      && negb (nonempty level) && is_texts keywords
  | _ => false
  end.

(** The location of the basics: exactly a city, which is not empty,
    and a region, which may be. *)
Definition is_location (v : value) : bool :=
  match v with
  | VDict [(k1, VStr city); (k2, VStr _)] =>
      str_eqb k1 (u "city") && str_eqb k2 (u "region") && nonempty city
  | _ => false
  end.

(** A profile of the basics: exactly a network and a url, which are
    not empty, and between them a user name, which may be. *)
Definition is_profile (v : value) : bool :=
  match v with
  | VDict [(k1, VStr network); (k2, VStr _); (k3, VStr url)] =>
      str_eqb k1 (u "network") && str_eqb k2 (u "username")
      && str_eqb k3 (u "url")
      && nonempty network && nonempty url
  | _ => false
  end.

(** A field of the basics after the name: the location, the profiles
    (a list that is not empty), or a string that is not empty under
    email, phone or url. *)
Definition basics_field (kv : str * value) : bool :=
  let (k, v) := kv in
  if str_eqb k (u "location") then is_location v
  else if str_eqb k (u "profiles") then
    match v with
    | VList l => nonempty l && forallb is_profile l
    | _ => false
    end
  else
    (str_eqb k (u "email") || str_eqb k (u "phone") || str_eqb k (u "url"))
    && is_text v.

(** The invariant the assembler has: the six top-level keys; the
    basics begin with the name, a string that may be empty, and go on
    with fields [basics_field]; the entries are [is_entry] and the
    categories [is_skill]. *)
Definition canonical_document (doc : value) : Prop :=
  exists basics work education skills projects name rest,
    doc = document basics work education skills projects
    /\ basics = (u "name", VStr name) :: rest
    /\ forallb basics_field rest = true
    /\ forallb is_entry work = true
    /\ forallb is_entry education = true
    /\ forallb is_skill skills = true
    /\ forallb is_entry projects = true.




(** [d] without the key [k]. *)
Definition without (k : str) (d : dict) : dict :=
  filter (fun kv => negb (str_eqb (fst kv) k)) d.


(** [sep.join(l)] for a one-character separator. *)
Definition join (sep : codepoint) (l : list str) : str :=
  match l with
  | [] => []
  | p :: ps => p ++ flat_map (fun q => sep :: q) ps
  end.

(** A value a loop of the converters can visit: once replaced by the
    empty list when it is false, it is a list, a string or a dict. *)
Definition iterable (v : value) : bool :=
  match iter (py_or v (VList [])) with Ok _ => true | Raise _ => false end.

(** An entry whose bullets and tools can be visited; an entry that is
    not a dict is skipped. *)
Definition entry_iterable (entry : value) : bool :=
  match entry with
  | VDict d => iterable (get d (u "bullets")) && iterable (get d (u "tools"))
  | _ => true
  end.

(** A section of entries that can all be visited. *)
Definition entries_iterable (v : value) : bool :=
  match iter (py_or v (VList [])) with
  | Ok items => forallb entry_iterable items
  | Raise _ => false
  end.

(** A letter of a month word of the table. *)
Definition month_letter (x : codepoint) : bool :=
  existsb (fun key => existsb (N.eqb x) key) (map fst MONTH_MAP).

(** A string that does not begin, or end, with white space. *)
Definition lclean (s : str) : Prop :=
  match s with c :: _ => isspace c = false | [] => True end.

Definition rclean (s : str) : Prop := lclean (rev s).

(** ** The callers in [helper.py] *)

(** The text [write_to_file] gives to [write_text]:
    [content.rstrip() + "\n"]. *)
Definition written_text (content : str) : str := rstrip content ++ [10].

(** [d.get(k, default)] *)
Definition get_default (d : dict) (k : str) (default : value) : value :=
  match lookup k d with Some v => v | None => default end.

(** The two statements of the loop of [modify_resume_info] that build
    a tailored entry from the answer of the model and the entry of the
    base resume: [entry_obj = json.loads(entry_response)] and
    [entry_obj["tools"] = entry.get("tools", [])].  The right-hand side
    is evaluated first: a base entry without [get] raises
    AttributeError, then an answer that is not a dict raises TypeError
    on the assignment. *)
Definition tailored_entry {B : Builtins} (entry_response : str)
    (entry : value) : result value :=
  entry_obj <- json_loads entry_response ;;
  match entry with
  | VDict entry =>
      let tools := get_default entry (u "tools") (VList []) in
      match entry_obj with
      | VDict entry_obj => Ok (VDict (setitem entry_obj (u "tools") tools))
      | _ => Raise TypeError
      end
  | _ => Raise AttributeError
  end.

(** Built-ins for the examples whose values are strings and lists of
    strings: nothing is decoded and nothing is printed. *)
Definition bare_builtins : Builtins := {|
  repr_ext := fun _ => [];
  json_loads := fun _ => Raise JSONDecodeError;
  json_dumps := fun _ => []
|}.

(** ** More words for the properties *)

(** Punctuation after a month word: a Basic Latin character that is
    not white space, a letter, a digit, an underscore or a comma. *)
Definition month_punct (c : codepoint) : bool :=
  (c <? 128) && negb (isspace c)
  && negb (ascii_isalpha c || ascii_isdigit c)
  && negb (c =? underscore) && negb (c =? comma).

(** The highlight of one bullet, if it has one. *)
Definition bullet_text (b : value) : list str :=
  match b with
  | VDict b =>
      match get b (u "text") with
      | VStr txt => if nonempty (strip txt) then [strip txt] else []
      | _ => []
      end
  | _ => []
  end.

(** A field that an entry keeps: a string or a list that is not
    empty. *)
Definition present (kv : str * value) : bool :=
  match snd kv with
  | VStr s => nonempty s
  | VList l => nonempty l
  | _ => true
  end.

(** An entry made of the fields [fields] that are present, appended to
    [out] unless there is none. *)
Definition append_entry (out : list value) (fields : dict) : list value :=
  if nonempty (filter present fields)
  then out ++ [VDict (filter present fields)] else out.

(** [c] holds: the item; otherwise nothing. *)
Definition item_if (c : bool) (k : string) (v : value) : dict :=
  if c then [(u k, v)] else [].

(** An entry of the output without dates. *)
Definition no_dates (v : value) : Prop :=
  match v with
  | VDict entry =>
      lookup (u "startDate") entry = None /\ lookup (u "endDate") entry = None
  | _ => True
  end.

(** The lower case of a code point above U+2014 has no letter of a
    month word (the Unicode database satisfies it: the only Basic Latin
    letter such a lower case holds is the k of the Kelvin sign). *)
Definition lower_above_has_no_month_letter (U : Unicode) : Prop :=
  forall whole i c x,
    8212 < c -> In x (lower_ext whole i c) -> month_letter x = false.

(** * Properties *)

Unset Implicit Arguments.

(** ** Strings *)

Lemma lstrip_lclean s : lclean (lstrip s).
Proof.
  induction s as [|c s IH]; simpl; [exact I|].
  destruct (isspace c) eqn:E; [exact IH | exact E].
Qed.

Lemma lclean_lstrip s : lclean s -> lstrip s = s.
Proof. destruct s as [|c s]; simpl; [reflexivity|]. now intros ->. Qed.

Lemma lstrip_length s : (length (lstrip s) <= length s)%nat.
Proof.
  induction s as [|c s IH]; simpl; [lia|].
  destruct (isspace c); simpl; lia.
Qed.

Lemma lstrip_skipn s : skipn (length s - length (lstrip s)) s = lstrip s.
Proof.
  induction s as [|c s IH]; [reflexivity|].
  cbn [lstrip]. destruct (isspace c).
  - pose proof (lstrip_length s). cbn [length].
    replace (S (length s) - length (lstrip s))%nat
      with (S (length s - length (lstrip s))) by lia.
    exact IH.
  - now rewrite Nat.sub_diag.
Qed.

Lemma lstrip_app_keep y c z :
  isspace c = false -> lstrip (y ++ c :: z) = lstrip y ++ c :: z.
Proof.
  intros Hc. induction y as [|d y IH]; simpl.
  - now rewrite Hc.
  - destruct (isspace d); [exact IH | reflexivity].
Qed.

Lemma rstrip_rclean s : rclean (rstrip s).
Proof. unfold rclean, rstrip. rewrite rev_involutive. apply lstrip_lclean. Qed.

Lemma rclean_rstrip s : rclean s -> rstrip s = s.
Proof.
  unfold rclean, rstrip. intros H.
  rewrite (lclean_lstrip _ H). apply rev_involutive.
Qed.

Lemma rstrip_lclean s : lclean s -> lclean (rstrip s).
Proof.
  destruct s as [|c s]; simpl; [intros _; exact I|].
  intros Hc. unfold rstrip. simpl.
  rewrite (lstrip_app_keep (rev s) c [] Hc), rev_app_distr. simpl. exact Hc.
Qed.

Lemma strip_lclean s : lclean (strip s).
Proof. apply rstrip_lclean, lstrip_lclean. Qed.

Lemma strip_rclean s : rclean (strip s).
Proof. apply rstrip_rclean. Qed.

Lemma strip_clean s : lclean s -> rclean s -> strip s = s.
Proof.
  intros Hl Hr. unfold strip. rewrite (lclean_lstrip _ Hl).
  now apply rclean_rstrip.
Qed.

Lemma rclean_app_r x r : rclean (x ++ r) -> rclean r.
Proof.
  unfold rclean. rewrite rev_app_distr.
  destruct (rev r); simpl; [intros _; exact I | auto].
Qed.

Lemma split_char_nonempty sep s : split_char sep s <> [].
Proof.
  destruct s as [|c s]; cbn [split_char]; [discriminate|].
  destruct (c =? sep); [discriminate|].
  destruct (split_char sep s); discriminate.
Qed.

Lemma split_char_join sep s : join sep (split_char sep s) = s.
Proof.
  induction s as [|c s IH]; cbn [split_char]; [reflexivity|].
  pose proof (split_char_nonempty sep s) as Hn.
  destruct (split_char sep s) as [|p ps]; [contradiction|].
  destruct (c =? sep) eqn:E; cbn [join flat_map app] in *.
  - apply N.eqb_eq in E. subst c. now rewrite IH.
  - now rewrite IH.
Qed.

Lemma split_char_no_sep sep s :
  Forall (fun p => ~ In sep p) (split_char sep s).
Proof.
  induction s as [|c s IH]; cbn [split_char].
  - constructor; [intros [] | constructor].
  - destruct (c =? sep) eqn:E.
    + constructor; [intros [] | exact IH].
    + apply N.eqb_neq in E.
      destruct (split_char sep s) as [|p ps].
      * constructor; [|constructor]. intros [H|[]]. congruence.
      * apply Forall_cons_iff in IH as [Hp Hps].
        constructor; [|exact Hps]. intros [H|H]; [congruence | auto].
Qed.

Lemma str_eqb_eq a b : str_eqb a b = true <-> a = b.
Proof. unfold str_eqb. destruct (list_eq_dec N.eq_dec a b); split; congruence. Qed.

Lemma Forall_filter (A : Type) (p : A -> bool) l :
  Forall (fun x => p x = true) (filter p l).
Proof.
  induction l as [|x l IH]; cbn [filter]; [constructor|].
  destruct (p x) eqn:E; [now constructor | exact IH].
Qed.

Lemma filter_map_comm (A B : Type) (f : A -> B) (p : B -> bool) (l : list A) :
  map f (filter (fun x => p (f x)) l) = filter p (map f l).
Proof.
  induction l as [|x l IH]; simpl; [reflexivity|].
  destruct (p (f x)); simpl; now rewrite IH.
Qed.

(** ** LocationSplitter *)

Lemma parse_city_region_segments (v : value) :
  _parse_city_region v =
  match v with
  | VStr s =>
      match location_segments s with
      | [] => ([], [])
      | [city] => (city, [])
      | city :: region :: _ => (city, region)
      end
  | _ => ([], [])
  end.
Proof.
  destruct v as [| | | |s| |]; try reflexivity.
  unfold _parse_city_region, location_segments.
  rewrite (filter_map_comm _ _ strip (@nonempty _)).
  destruct (filter _ _) as [|a [|b l]]; reflexivity.
Qed.

(** C9. The location splitter splits on commas, trims the segments and
    drops the empty ones; no segment (or an input that is not a string)
    gives two empty strings, one segment gives (segment, empty), two or
    more give the first two and discard the rest.  "North Brunswick, NJ"
    gives ("North Brunswick", "NJ") and "Remote" gives ("Remote", empty). *)
Theorem parse_city_region_spec :
  (forall v : value,
     _parse_city_region v =
     match v with
     | VStr s =>
         match location_segments s with
         | [] => ([], [])
         | [city] => (city, [])
         | city :: region :: _ => (city, region)
         end
     | _ => ([], [])
     end)
  /\ _parse_city_region (VStr (u "North Brunswick, NJ"))
     = (u "North Brunswick", u "NJ")
  /\ _parse_city_region (VStr (u "Remote")) = (u "Remote", []).
Proof.
  split; [exact parse_city_region_segments | split; reflexivity].
Qed.

(** ** The matcher *)

(** Turns a hypothesis on boolean comparisons into a proposition. *)
Ltac b2p H :=
  repeat first
    [ rewrite orb_true_iff in H | rewrite andb_true_iff in H
    | rewrite orb_false_iff in H | rewrite andb_false_iff in H
    | rewrite negb_true_iff in H | rewrite negb_false_iff in H
    | rewrite N.eqb_eq in H | rewrite N.eqb_neq in H
    | rewrite N.leb_le in H | rewrite N.leb_gt in H
    | rewrite N.ltb_lt in H | rewrite N.ltb_ge in H ].

Lemma ignorecase_not_space lo c :
  ascii_islower lo = true -> isspace c = true -> Re.ignorecase lo c = false.
Proof.
  intros Hlo Hc. destruct (Re.ignorecase lo c) eqn:E; [exfalso|reflexivity].
  unfold ascii_islower, isspace, Re.ignorecase in *.
  b2p Hlo; b2p Hc; b2p E. lia.
Qed.

Lemma star_len_lstrip k s :
  (forall c r, isspace c = true -> k (c :: r) = None) ->
  Re.star_len isspace k s =
  option_map (fun n => (length s - length (lstrip s) + n)%nat) (k (lstrip s)).
Proof.
  intros Hk. induction s as [|c s IH]; cbn [Re.star_len lstrip].
  - destruct (k []); reflexivity.
  - destruct (isspace c) eqn:E.
    + rewrite IH. pose proof (lstrip_length s).
      destruct (k (lstrip s)); cbn [option_map length].
      * f_equal. lia.
      * now apply Hk.
    + rewrite Nat.sub_diag. destruct (k (c :: s)); reflexivity.
Qed.

Lemma star_len_end s :
  Re.star_len isspace (fun _ => Some 0%nat) s
  = Some (length s - length (lstrip s))%nat.
Proof.
  induction s as [|c s IH]; cbn [Re.star_len lstrip]; [reflexivity|].
  destruct (isspace c).
  - rewrite IH. pose proof (lstrip_length s). cbn [length]. f_equal. lia.
  - now rewrite Nat.sub_diag.
Qed.

Lemma split_go_skip re n piece s :
  (n <= length s)%nat ->
  Re.split_go re n piece s = Re.split_go re 0 piece (skipn n s).
Proof.
  revert s. induction n as [|n IH]; intros s Hn; [reflexivity|].
  destruct s as [|c s]; cbn [length] in Hn; [lia|].
  cbn [Re.split_go skipn]. apply IH. lia.
Qed.

(** ** DegreeTitleSplitter *)

Lemma lstrip_prefix s : exists w, s = w ++ lstrip s.
Proof.
  induction s as [|c s [w IH]]; cbn [lstrip]; [now exists []|].
  destruct (isspace c); [|now exists []].
  exists (c :: w). cbn [app]. now rewrite <- IH.
Qed.

Lemma after_in_suffix s r :
  after_in s = Some r -> exists c m, s = (c :: m) ++ r.
Proof.
  unfold after_in. destruct s as [|c s]; [discriminate|].
  destruct (isspace c) eqn:Ec; [|discriminate].
  cbn [lstrip]. rewrite Ec.
  destruct (lstrip_prefix s) as [w1 Hs].
  destruct (lstrip s) as [|i [|n [|w t]]] eqn:El; try discriminate.
  destruct (_ && _); [|discriminate]. intros [= <-].
  destruct (lstrip_prefix t) as [w2 Ht].
  exists c, (w1 ++ i :: n :: w :: w2).
  rewrite Hs, Ht at 1. cbn [app]. rewrite <- app_assoc. reflexivity.
Qed.

Lemma match_in_len s :
  Re.match_len in_re s =
  match after_in s with
  | Some r => Some (length s - length r)%nat
  | None => None
  end.
Proof.
  destruct s as [|c s]; [reflexivity|].
  unfold after_in. cbn [lstrip].
  change (Re.match_len in_re (c :: s)) with
    (if isspace c
     then option_map S
            (Re.star_len isspace
               (Re.match_len (Re.word_i (u "in") ++ Re.plus isspace)) s)
     else None).
  destruct (isspace c) eqn:Ec; [|reflexivity].
  rewrite star_len_lstrip.
  2:{ intros d r Hd. cbn.
      now rewrite (ignorecase_not_space 105 d eq_refl Hd). }
  pose proof (lstrip_length s) as Hl.
  destruct (lstrip s) as [|i [|n [|w t]]] eqn:El;
    cbn [Re.word_i map u list_ascii_of_string app Re.match_len Re.plus];
    change (N_of_ascii "i") with 105; change (N_of_ascii "n") with 110.
  - reflexivity.
  - destruct (Re.ignorecase 105 i); reflexivity.
  - destruct (Re.ignorecase 105 i), (Re.ignorecase 110 n); reflexivity.
  - destruct (Re.ignorecase 105 i), (Re.ignorecase 110 n), (isspace w);
      try reflexivity.
    cbn [andb]. rewrite star_len_end. pose proof (lstrip_length t).
    cbn [option_map length] in *. f_equal. lia.
Qed.

Lemma split_in_cut t : forall piece,
  Re.split_go in_re 0 piece t =
  match cut_in t with
  | None => [rev piece ++ t]
  | Some (a, r) => (rev piece ++ a) :: Re.split_go in_re 0 [] r
  end.
Proof.
  induction t as [|c t IH]; intros piece.
  - cbn. now rewrite app_nil_r.
  - cbn [Re.split_go cut_in]. rewrite match_in_len.
    destruct (after_in (c :: t)) as [r|] eqn:Ea.
    + destruct (after_in_suffix _ _ Ea) as (c' & m & Hs).
      cbn [app] in Hs. injection Hs as <- Ht. subst t.
      cbn [length]. rewrite length_app.
      replace (S (length m + length r) - length r)%nat
        with (S (length m)) by lia.
      rewrite app_nil_r. f_equal.
      rewrite split_go_skip by (rewrite length_app; lia).
      rewrite skipn_app, skipn_all, Nat.sub_diag. reflexivity.
    + rewrite IH. destruct (cut_in t) as [[a r]|];
        cbn [rev]; rewrite <- app_assoc; reflexivity.
Qed.

Lemma after_in_lclean s r : after_in s = Some r -> lclean r.
Proof.
  unfold after_in. destruct s as [|c s]; [discriminate|].
  destruct (isspace c); [|discriminate].
  destruct (lstrip (c :: s)) as [|i [|n [|w t]]]; try discriminate.
  destruct (_ && _); [|discriminate]. intros [= <-]. apply lstrip_lclean.
Qed.

Lemma after_in_cons c s r :
  isspace c = true -> after_in s = Some r -> after_in (c :: s) = Some r.
Proof.
  intros Hc. unfold after_in at 2. rewrite Hc. cbn [lstrip]. rewrite Hc.
  unfold after_in. destruct s as [|d s]; [discriminate|].
  now destruct (isspace d).
Qed.

Lemma cut_in_nil t r : cut_in t = Some ([], r) -> after_in t = Some r.
Proof.
  destruct t as [|e t]; cbn [cut_in].
  - cbn. discriminate.
  - destruct (after_in (e :: t)); [now intros [= <-]|].
    destruct (cut_in t) as [[? ?]|]; discriminate.
Qed.

Lemma cut_in_parts t : forall a r,
  cut_in t = Some (a, r) ->
  (exists m, t = a ++ m ++ r) /\ lclean r /\ rclean a /\ (lclean t -> lclean a).
Proof.
  induction t as [|c t IH]; intros a r; cbn [cut_in].
  - cbn. discriminate.
  - destruct (after_in (c :: t)) as [r'|] eqn:Ea.
    + intros [= <- <-]. destruct (after_in_suffix _ _ Ea) as (c' & m & Hs).
      repeat split; try exact I.
      * exists (c' :: m). exact Hs.
      * eapply after_in_lclean; eauto.
    + destruct (cut_in t) as [[a' r']|] eqn:Ec; [|discriminate].
      intros [= <- <-]. destruct (IH _ _ eq_refl) as ((m & Ht) & Hr & Ha & _).
      repeat split; trivial.
      * exists m. cbn [app]. now rewrite <- Ht.
      * destruct a' as [|d a'].
        -- unfold rclean; cbn.
           destruct (isspace c) eqn:Hc; [|reflexivity].
           apply cut_in_nil in Ec.
           rewrite (after_in_cons c t r' Hc Ec) in Ea. discriminate.
        -- unfold rclean in *. cbn [rev] in *.
           destruct (rev a' ++ [d]) eqn:E; [|exact Ha].
           now destruct (rev a').
Qed.

(** What the code returns, for every title. *)
Lemma split_degree_title_cut (title : str) :
  _split_degree_title (VStr title) = degree_two_fields title.
Proof.
  unfold _split_degree_title, degree_two_fields, Re.split.
  pose proof (strip_lclean title) as Hl. pose proof (strip_rclean title) as Hr.
  destruct (strip title) as [|c t] eqn:Et; [reflexivity|].
  cbn [nonempty negb]. rewrite split_in_cut. cbn [rev app].
  destruct (cut_in (c :: t)) as [[a r]|] eqn:Ec; [|reflexivity].
  destruct (cut_in_parts _ _ _ Ec) as ((m & Hm) & Hlr & Hra & Hla).
  rewrite split_in_cut. cbn [rev app].
  assert (Hrr : rclean r).
  { rewrite Hm, app_assoc in Hr. now apply rclean_app_r in Hr. }
  destruct (cut_in r) as [[a2 r2]|] eqn:Ec2; cbn [length Nat.eqb nth].
  - destruct (cut_in_parts _ _ _ Ec2) as (_ & _ & Hra2 & Hla2).
    now rewrite !strip_clean by auto.
  - now rewrite !strip_clean by auto.
Qed.

(** What precedes a match is shorter than the text. *)
Lemma cut_in_shorter t : forall a r,
  cut_in t = Some (a, r) -> (length a < length t)%nat.
Proof.
  induction t as [|c t IH]; intros a r; cbn [cut_in].
  - cbn. discriminate.
  - destruct (after_in (c :: t)) as [r'|].
    + intros [= <- <-]. cbn [length]. lia.
    + destruct (cut_in t) as [[a' r']|] eqn:Ec; [|discriminate].
      intros [= <- <-]. cbn [length]. specialize (IH _ _ eq_refl). lia.
Qed.

(** C5.  On "Master of Science in Innovation in Design" the degree
    title splitter returns the area "Innovation", where the
    specification, which cuts at the first occurrence only, gives
    "Innovation in Design": [re.split] cuts at every match and the code
    keeps the first two pieces.  For every title the code agrees with
    the specification exactly when what follows the first match has no
    further match; the study type always agrees.  A value that is not a
    string and the empty string give two empty strings, and the two
    examples of the specification hold. *)
Theorem split_degree_title_second_cut :
  _split_degree_title (VStr (u "Master of Science in Innovation in Design"))
  = (u "Master of Science", u "Innovation")
  /\ degree_first_cut (u "Master of Science in Innovation in Design")
     = (u "Master of Science", u "Innovation in Design")
  /\ (forall title : str,
        _split_degree_title (VStr title) = degree_first_cut title
        <-> match cut_in (strip title) with
            | Some (_, rest) => cut_in rest = None
            | None => True
            end)
  /\ (forall title : str,
        fst (_split_degree_title (VStr title)) = fst (degree_first_cut title))
  /\ (forall v : value,
        match v with
        | VStr _ => True
        | _ => _split_degree_title v = ([], [])
        end)
  /\ _split_degree_title (VStr []) = ([], [])
  /\ _split_degree_title
       (VStr (u "Masters of Engineering in Computer Science"))
     = (u "Masters of Engineering", u "Computer Science")
  /\ _split_degree_title (VStr (u "BS Computer Science"))
     = (u "BS Computer Science", []).
Proof.
  split; [reflexivity|]. split; [reflexivity|].
  split; [|split; [|split; [|repeat split; reflexivity]]].
  - intros title. rewrite split_degree_title_cut.
    unfold degree_two_fields, degree_first_cut.
    destruct (cut_in (strip title)) as [[a r]|]; [|tauto].
    destruct (cut_in r) as [[a2 r2]|] eqn:E2.
    + split; [|discriminate]. intros [= H]. subst a2.
      apply cut_in_shorter in E2. lia.
    + tauto.
  - intros title. rewrite split_degree_title_cut.
    unfold degree_two_fields, degree_first_cut.
    now destruct (cut_in (strip title)) as [[a r]|].
  - intros v. destruct v; first [exact I | reflexivity].
Qed.

(** Matches do not overlap: in "BS in in CS" the second word has lost
    the white space before it to the first match, and the area is all
    that follows the first match. *)
Example split_degree_title_no_overlap :
  _split_degree_title (VStr (u "BS in in CS")) = (u "BS", u "in CS")
  /\ degree_first_cut (u "BS in in CS") = (u "BS", u "in CS").
Proof. split; reflexivity. Qed.

(** ** ProfileLinkParser *)

Lemma starts_with_spec p : forall s,
  starts_with p s = true <-> exists b, s = p ++ b.
Proof.
  induction p as [|a p IH]; intros s; cbn [starts_with].
  - split; [intros _; now exists s | reflexivity].
  - destruct s as [|c s].
    + split; [discriminate | intros [b Hb]; discriminate].
    + rewrite andb_true_iff, N.eqb_eq, IH. split.
      * intros [-> [b ->]]. now exists b.
      * intros [b [= -> ->]]. split; [reflexivity | now exists b].
Qed.

Lemma contains_spec sub s : contains sub s = true <-> substring sub s.
Proof.
  unfold substring. induction s as [|c s IH]; cbn [contains].
  - rewrite orb_false_r, starts_with_spec. split.
    + intros [b ->]. now exists [], b.
    + intros (a & b & H). destruct a; [now exists b|discriminate].
  - rewrite orb_true_iff, starts_with_spec, IH. split.
    + intros [[b ->] | (a & b & ->)]; [now exists [], b | now exists (c :: a), b].
    + intros ([|d a] & b & H); cbn [app] in H.
      * left. now exists b.
      * right. injection H as -> ->. now exists a, b.
Qed.

Lemma split_once_spec sep : forall s a b,
  split_once sep s = Some (a, b) -> s = a ++ sep ++ b.
Proof.
  induction s as [|c s IH]; intros a b; cbn [split_once].
  - destruct (starts_with sep []) eqn:E; [|discriminate].
    intros [= <- <-]. apply starts_with_spec in E. destruct E as [b E].
    destruct sep; [reflexivity | discriminate].
  - destruct (starts_with sep (c :: s)) eqn:E.
    + intros [= <- <-]. apply starts_with_spec in E. destruct E as [b E].
      rewrite E, skipn_app, skipn_all, Nat.sub_diag. reflexivity.
    + destruct (split_once sep s) as [[a' b']|]; [|discriminate].
      intros [= <- <-]. cbn [app]. f_equal. now apply IH.
Qed.

Lemma split_once_none sep : forall s,
  split_once sep s = None -> contains sep s = false.
Proof.
  induction s as [|c s IH]; cbn [split_once contains].
  - now destruct (starts_with sep []).
  - destruct (starts_with sep (c :: s)); [discriminate|].
    destruct (split_once sep s) as [[? ?]|]; [discriminate|].
    intros _. now apply IH.
Qed.

Lemma last_In (A : Type) (l : list A) d : l <> [] -> In (last l d) l.
Proof.
  induction l as [|x [|y l] IH]; intros H; [contradiction | now left |].
  right. apply IH. discriminate.
Qed.

(** The user name has no slash, and it is empty only when no segment
    of the path is left. *)
Lemma last_segment_spec url :
  ~ In slash (last_segment url)
  /\ (last_segment url = [] <->
      filter (@nonempty _) (split_char slash (after_scheme url)) = []).
Proof.
  unfold last_segment.
  pose proof (split_char_no_sep slash (after_scheme url)) as Hs.
  pose proof (Forall_filter _ (@nonempty _)
                (split_char slash (after_scheme url))) as Hn.
  destruct (filter _ _) as [|x l] eqn:E.
  - split; [intros [] | tauto].
  - assert (Hin : In (last (x :: l) []) (x :: l)) by (apply last_In; discriminate).
    split.
    + rewrite Forall_forall in Hs. apply Hs.
      assert (Hsub : forall y, In y (x :: l) ->
                In y (split_char slash (after_scheme url))).
      { intros y Hy. rewrite <- E in Hy. now apply filter_In in Hy. }
      now apply Hsub.
    + rewrite Forall_forall in Hn. apply Hn in Hin.
      split; [intros H; rewrite H in Hin; discriminate | discriminate].
Qed.

Lemma lower_from_basic_latin (U : Unicode) whole s : forall i,
  Forall (fun c => c < 128) s -> lower_from whole i s = map ascii_lower s.
Proof.
  induction s as [|c s IH]; intros i H; [reflexivity|].
  apply Forall_cons_iff in H as [Hc Hs]. cbn [lower_from map].
  unfold lower_at. apply N.ltb_lt in Hc. rewrite Hc.
  cbn [app]. f_equal. now apply IH.
Qed.

(** On Basic Latin text [lower] maps the capital letters to the small
    ones and keeps the rest. *)
Lemma lower_basic_latin (U : Unicode) s :
  Forall (fun c => c < 128) s -> lower s = map ascii_lower s.
Proof. apply lower_from_basic_latin. Qed.

(** C7, amended.  For every URL that is not empty once trimmed, the
    profile link parser returns a profile with the trimmed URL; the
    network is LinkedIn when the lower-cased URL contains
    "linkedin.com", else GitHub when it contains "github.com", else the
    generic "Profile"; the user name is the last non-empty segment
    between slashes of what follows the first "://", or empty.  A
    string that is empty once trimmed and a value that is not a string
    give no profile.  "https://github.com/PCosby/" gives network
    GitHub, user name PCosby and the URL itself. *)
Theorem parse_link_profile_spec (U : Unicode) :
  (forall url : str,
     strip url <> [] ->
     link_profile_post (_parse_link_profile (VStr url)) (strip url))
  /\ (forall v : value,
        match v with
        | VStr url => strip url = [] -> _parse_link_profile v = VNone
        | _ => _parse_link_profile v = VNone
        end)
  /\ _parse_link_profile (VStr (u "https://github.com/PCosby/"))
     = profile (u "GitHub") (u "PCosby") (u "https://github.com/PCosby/").
Proof.
  split; [|split; [|reflexivity]].
  - intros url Hne. unfold _parse_link_profile, link_profile_post.
    destruct (strip url) as [|c t] eqn:Et; [contradiction|].
    cbn [nonempty negb]. eexists. split.
    + unfold profile. do 4 f_equal.
      unfold last_segment, after_scheme, split_max1.
      destruct (split_once (u "://") (c :: t)) as [[a b]|]; cbn [last];
        now destruct (filter _ _).
    + rewrite <- !contains_spec.
      destruct (contains (u "linkedin.com") (lower (c :: t)));
        destruct (contains (u "github.com") (lower (c :: t)));
        repeat split; intros; try reflexivity; congruence.
  - intros [| | | |url| |]; try reflexivity.
    unfold _parse_link_profile. now intros ->.
Qed.

Lemma parse_link_profile_witness :
  strip (u " https://www.linkedin.com/in/pcosby ") <> []
  /\ @link_profile_post basic_latin
       (@_parse_link_profile basic_latin
          (VStr (u " https://www.linkedin.com/in/pcosby ")))
       (strip (u " https://www.linkedin.com/in/pcosby "))
  /\ strip (u "  ") = []
  /\ @_parse_link_profile basic_latin (VStr (u "  ")) = VNone.
Proof.
  assert (H : strip (u " https://www.linkedin.com/in/pcosby ") <> [])
    by (vm_compute; discriminate).
  split; [exact H|]. split.
  - exact (proj1 (parse_link_profile_spec basic_latin) _ H).
  - split; [reflexivity|].
    exact (proj1 (proj2 (parse_link_profile_spec basic_latin))
             (VStr (u "  ")) eq_refl).
Defined.

(** C7, as stated, fails: a string of white space is not empty and
    has no profile, and the URL of a profile is the trimmed one, not
    the URL as it was given. *)
Lemma parse_link_profile_blank :
  u " " <> []
  /\ @_parse_link_profile basic_latin (VStr (u " ")) = VNone
  /\ ~ @link_profile_claim basic_latin (u " ")
  /\ @_parse_link_profile basic_latin (VStr (u " https://github.com/PCosby/"))
     = profile (u "GitHub") (u "PCosby") (u "https://github.com/PCosby/")
  /\ ~ @link_profile_claim basic_latin (u " https://github.com/PCosby/").
Proof.
  assert (N1 : u " " <> []) by (vm_compute; discriminate).
  assert (N2 : u " https://github.com/PCosby/" <> [])
    by (vm_compute; discriminate).
  split; [exact N1|]. split; [reflexivity|]. split; [|split; [reflexivity|]].
  - intros C. destruct (C N1) as (network & E & _).
    vm_compute in E. discriminate.
  - intros C. destruct (C N2) as (network & E & _).
    vm_compute in E. discriminate.
Qed.

(** ** SkillsCategorizer *)

Section Skills.
Context {U : Unicode} {B : Builtins}.

Lemma skill_keywords_spec v : skill_keywords v = category_keywords v.
Proof.
  unfold skill_keywords, category_keywords.
  destruct v; try apply (filter_map_comm _ _ strip (@nonempty _)).
  apply (filter_map_comm _ _ (fun x => strip (str_of x)) (@nonempty _)).
Qed.

Lemma skill_step_spec out item :
  skill_step out item = out ++ skill_category item.
Proof.
  destruct item as [key v]. unfold skill_step, skill_category.
  cbn [fst snd].
  destruct v; try (now rewrite app_nil_r);
    (rewrite <- skill_keywords_spec;
     destruct (skill_keywords _); cbn [nonempty negb];
     [now rewrite app_nil_r | reflexivity]).
Qed.

Lemma skill_loop_spec d : forall out,
  fold_left skill_step d out = out ++ flat_map skill_category d.
Proof.
  induction d as [|item d IH]; intros out; cbn [fold_left flat_map].
  - now rewrite app_nil_r.
  - now rewrite IH, skill_step_spec, app_assoc.
Qed.

(** C8. The skills categorizer visits the items of the mapping in
    their order; the elements of a sequence, or the fields between
    commas of a stringified scalar, are trimmed and the empty ones
    dropped; a category without keywords (or without a value) is left
    out; the name is the key with underscores replaced by spaces, in
    title case; the level is the empty string.  The mapping of
    "programming_languages" to ["Python", " "] gives the one category
    Programming Languages with the keyword Python. *)
Theorem convert_skills_spec :
  (forall v : value,
     _convert_skills v =
     match v with
     | VDict d => flat_map skill_category d
     | _ => []
     end)
  /\ _convert_skills
       (VDict [(u "programming_languages",
                VList [VStr (u "Python"); VStr (u " ")])])
     = [VDict [ (u "name", VStr (u "Programming Languages"));
                (u "level", VStr []);
                (u "keywords", VList [VStr (u "Python")]) ]].
Proof.
  split; [|reflexivity].
  intros [| | | | | |d]; try reflexivity.
  unfold _convert_skills. now rewrite skill_loop_spec.
Qed.

End Skills.

(** ** DateRangeParser *)

Lemma search_sound re : forall s i n,
  Re.search re s = Some (i, n) -> Re.match_len re (skipn i s) = Some n.
Proof.
  induction s as [|c s IH]; intros i n; cbn [Re.search].
  - destruct (Re.match_len re []) eqn:E; [|discriminate].
    now intros [= <- <-].
  - destruct (Re.match_len re (c :: s)) eqn:E.
    + now intros [= <- <-].
    + destruct (Re.search re s) as [[j m]|]; [|discriminate].
      intros [= <- <-]. cbn [skipn]. now apply IH.
Qed.

Lemma match_len_chrs p k : forall s n,
  Re.match_len (repeat (Re.Chr p) k) s = Some n ->
  n = k /\ length (firstn k s) = k /\ Forall (fun c => p c = true) (firstn k s).
Proof.
  induction k as [|k IH]; intros s n; cbn [repeat Re.match_len].
  - intros [= <-]. repeat split. constructor.
  - destruct s as [|c s]; [discriminate|].
    destruct (p c) eqn:Ec; [|discriminate].
    destruct (Re.match_len (repeat (Re.Chr p) k) s) as [m|] eqn:Em;
      [|discriminate].
    intros [= <-]. destruct (IH _ _ Em) as (-> & Hl & Hf).
    cbn [firstn length]. repeat split; [now rewrite Hl | now constructor].
Qed.

Lemma lookup_In (A : Type) k (d : list (str * A)) v :
  lookup k d = Some v -> In v (map snd d).
Proof.
  induction d as [|[k' v'] d IH]; cbn [lookup map snd In]; [discriminate|].
  destruct (str_eqb k' k); [intros [= ->]; now left | right; auto].
Qed.

Lemma month_map_numbers m :
  In m (map snd MONTH_MAP) -> In m month_numbers /\ m <> [].
Proof.
  cbn [map snd MONTH_MAP In].
  intros H; repeat (destruct H as [<- | H];
    [split; [vm_compute; tauto | discriminate]|]); contradiction.
Qed.

Lemma star_len_keeps p k s n :
  k s = Some (S n) -> exists m, Re.star_len p k s = Some (S m).
Proof.
  destruct s as [|c s]; cbn [Re.star_len]; intros H; [eauto|].
  destruct (p c); [|eauto]. destruct (Re.star_len p k s); eauto.
Qed.

Lemma date_match_class c s :
  date_split_class c = true ->
  exists n, Re.match_len _DATE_SPLIT_RE (c :: s) = Some (S n).
Proof.
  intros Hc.
  apply (star_len_keeps isspace
           (Re.match_len [Re.Chr date_split_class; Re.Star isspace])
           (c :: s) (length s - length (lstrip s))).
  cbn [Re.match_len]. now rewrite Hc, star_len_end.
Qed.

(** No segment of the split holds a code point of the class: what
    reaches the month and year parser has no letter and no digit. *)
Lemma date_split_segments s : forall skip piece,
  Forall (fun c => date_split_class c = false) piece ->
  Forall (Forall (fun c => date_split_class c = false))
    (Re.split_go _DATE_SPLIT_RE skip piece s).
Proof.
  induction s as [|c s IH]; intros skip piece Hp; cbn [Re.split_go].
  - constructor; [|constructor]. now apply Forall_rev.
  - destruct skip as [|k]; [|now apply IH].
    assert (Hc : forall m,
               Re.match_len _DATE_SPLIT_RE (c :: s) = m ->
               match m with Some (S _) => True | _ => date_split_class c = false end).
    { intros m Hm. destruct (date_split_class c) eqn:Ec.
      - destruct (date_match_class c s Ec) as [n Hn].
        rewrite Hn in Hm. now subst m.
      - now destruct m as [[|?]|]. }
    specialize (Hc _ eq_refl).
    destruct (Re.match_len _DATE_SPLIT_RE (c :: s)) as [[|n]|].
    + apply IH. now constructor.
    + constructor; [now apply Forall_rev | apply IH; constructor].
    + apply IH. now constructor.
Qed.

Section DateProperties.
Context {U : Unicode}.

Lemma parse_month_year_spec v :
  _parse_month_year v = ([], [])
  \/ (length (fst (_parse_month_year v)) = 4%nat
      /\ Forall (fun c => isdecimal c = true) (fst (_parse_month_year v))
      /\ In (snd (_parse_month_year v)) month_numbers).
Proof.
  destruct v; try (now left). unfold _parse_month_year.
  destruct (negb _); [now left|]. destruct (_ <? _)%nat; [now left|].
  destruct (Re.search _ (strip s)) as [[i n]|] eqn:Es; [|now left].
  destruct (lookup _ MONTH_MAP) as [month|] eqn:El; [|now left].
  apply lookup_In, month_map_numbers in El. destruct El as [Hm Hne].
  destruct month as [|c month]; [contradiction|]. cbn [nonempty negb].
  right. cbn [fst snd]. apply search_sound, match_len_chrs in Es.
  destruct Es as (-> & Hl & Hf). unfold Re.group0. cbn [fst snd]. auto.
Qed.

(** C2.  On "Jun 2023 - Aug 2023" and on "Jan 2024 - Present" the
    date range parser returns two empty strings, although the month
    and year parser reads "Jun 2023" as 2023 and 06: every letter and
    digit is in the class of the separator. *)
Theorem parse_date_range_examples :
  _parse_date_range (VStr (u "Jun 2023 - Aug 2023")) = ([], [])
  /\ _parse_date_range (VStr (u "Jan 2024 - Present")) = ([], [])
  /\ _parse_month_year (VStr (u "Jun 2023")) = (u "2023", u "06")
  /\ Re.split _DATE_SPLIT_RE (u "Jun 2023 - Aug 2023") = repeat [] 16.
Proof. repeat split; reflexivity. Qed.

(** C3.  The class of the separator is the range of code points from
    the hyphen (U+002D) to the em dash (U+2014): the three dashes are
    in it, and so is a letter; no segment of any input holds a code
    point of that range; "Jun 2023", which has no dash, is cut into
    eight empty segments and no start date is read. *)
Theorem date_separator_is_a_range :
  (forall c : codepoint, date_split_class c = true <-> 45 <= c <= 8212)
  /\ date_split_class hyphen = true
  /\ date_split_class en_dash = true
  /\ date_split_class em_dash = true
  /\ Re.match_len _DATE_SPLIT_RE (u "J") = Some 1%nat
  /\ (forall s : str,
        Forall (Forall (fun c => date_split_class c = false))
          (Re.split _DATE_SPLIT_RE s))
  /\ Re.split _DATE_SPLIT_RE (u "Jun 2023") = repeat [] 8
  /\ _parse_date_range (VStr (u "Jun 2023")) = ([], []).
Proof.
  split.
  { intros c. unfold date_split_class, hyphen, em_dash.
    rewrite andb_true_iff, !N.leb_le. reflexivity. }
  do 4 (split; [reflexivity|]).
  split; [|split; reflexivity].
  intros s. apply date_split_segments. constructor.
Qed.

End DateProperties.

(** *** The parser never reads a date

    No segment holds a code point between U+002D and U+2014, and what
    is left has no letter of a month word once lower-cased, as far as
    the lower case of a code point above U+2014 has none (in the
    Unicode database its only Basic Latin letter is the k of the
    Kelvin sign). *)

Lemma Forall_lstrip (P : codepoint -> Prop) s : Forall P s -> Forall P (lstrip s).
Proof.
  induction 1 as [|c s Hc Hs IH]; cbn [lstrip]; [constructor|].
  destruct (isspace c); [exact IH | now constructor].
Qed.

Lemma Forall_strip (P : codepoint -> Prop) s : Forall P s -> Forall P (strip s).
Proof.
  intros H. unfold strip, rstrip.
  now apply Forall_rev, Forall_lstrip, Forall_rev, Forall_lstrip.
Qed.

Lemma Forall_split_ws (P : codepoint -> Prop) s : forall cur,
  Forall P cur -> Forall (fun c => isspace c = false -> P c) s ->
  Forall (Forall P) (split_ws_go cur s).
Proof.
  induction s as [|c s IH]; intros cur Hcur Hs; cbn [split_ws_go].
  - destruct cur; constructor; [now apply Forall_rev | constructor].
  - apply Forall_cons_iff in Hs as [Hc Hs].
    destruct (isspace c).
    + destruct cur; [now apply IH|].
      constructor; [now apply Forall_rev | now apply IH].
    + apply IH; [constructor; auto | exact Hs].
Qed.

Lemma remove_class q s : forall piece,
  concat (Re.split_go [Re.Chr q] 0 piece s)
  = rev piece ++ filter (fun c => negb (q c)) s.
Proof.
  induction s as [|c s IH]; intros piece; cbn [Re.split_go Re.match_len filter].
  - cbn [concat]. now rewrite app_nil_r.
  - destruct (q c); cbn [option_map negb].
    + cbn [concat]. rewrite IH. reflexivity.
    + rewrite IH. cbn [rev]. now rewrite <- app_assoc.
Qed.

Lemma lookup_month_letters k :
  Forall (fun x => month_letter x = false) k -> lookup k MONTH_MAP = None.
Proof.
  intros Hk.
  assert (H : forall key v, In (key, v) MONTH_MAP -> str_eqb key k = false).
  { intros key v Hin. destruct (str_eqb key k) eqn:E; [|reflexivity].
    apply str_eqb_eq in E. subst k. exfalso.
    cbn [MONTH_MAP In] in Hin.
    repeat (destruct Hin as [[= <- <-] | Hin];
            [apply Forall_cons_iff in Hk as [Hk _]; vm_compute in Hk;
             discriminate|]).
    contradiction. }
  induction MONTH_MAP as [|[key v] m IH]; cbn [lookup]; [reflexivity|].
  rewrite (H key v) by now left. apply IH. intros key' v' Hin.
  apply (H key' v'). now right.
Qed.

Section NeverADate.
Context {U : Unicode}.
Hypothesis lower_above :
  forall whole i c x,
    8212 < c -> In x (lower_ext whole i c) -> month_letter x = false.

Lemma lower_no_month_letter whole s : forall i,
  Forall (fun c => 8212 < c) s ->
  Forall (fun x => month_letter x = false) (lower_from whole i s).
Proof.
  induction s as [|c s IH]; intros i Hs; cbn [lower_from]; [constructor|].
  apply Forall_cons_iff in Hs as [Hc Hs]. apply Forall_app. split.
  - unfold lower_at. assert (E : (c <? 128) = false) by (apply N.ltb_ge; lia).
    rewrite E. apply Forall_forall. intros x Hx. eapply lower_above; eauto.
  - now apply IH.
Qed.

Lemma parse_month_year_outside s :
  Forall (fun c => date_split_class c = false) s ->
  _parse_month_year (VStr s) = ([], []).
Proof.
  intros Hs. unfold _parse_month_year.
  destruct (negb _); [reflexivity|]. destruct (_ <? _)%nat; [reflexivity|].
  destruct (Re.search _ _); [|reflexivity].
  rewrite lookup_month_letters; [reflexivity|].
  unfold lower. apply lower_no_month_letter.
  unfold Re.remove, Re.split. rewrite remove_class. cbn [rev app].
  assert (Ht : Forall (fun c => date_split_class c = false)
                 (nth 0 (split_ws (replace_char comma space (strip s))) [])).
  { assert (Hall : Forall (Forall (fun c => date_split_class c = false))
                     (split_ws (replace_char comma space (strip s)))).
    { apply Forall_split_ws; [constructor|].
      unfold replace_char. apply Forall_map.
      apply Forall_strip in Hs. revert Hs. apply Forall_impl.
      intros c Hc. destruct (c =? comma); [discriminate | auto]. }
    destruct (split_ws _) as [|t ts]; [constructor|].
    now apply Forall_cons_iff in Hall. }
  induction Ht as [|c t Hc Ht IH]; cbn [filter]; [constructor|].
  destruct (isword c) eqn:Ew; cbn [negb]; [|exact IH].
  constructor; [|exact IH].
  unfold date_split_class, hyphen, em_dash in Hc.
  unfold isword, isalnum, ascii_isalpha, ascii_isupper, ascii_islower,
    ascii_isdigit, underscore in Ew.
  destruct (c <? 128) eqn:E; b2p Hc; b2p Ew; b2p E; lia.
Qed.

(** Whatever the input, the date range parser returns two empty
    strings. *)
Lemma parse_date_range_never_a_date (dates : value) :
  _parse_date_range dates = ([], []).
Proof.
  destruct dates; try reflexivity. unfold _parse_date_range.
  destruct (negb (nonempty (strip s))); [reflexivity|].
  destruct (negb _); [reflexivity|].
  assert (Hn : forall i,
             Forall (fun c => date_split_class c = false)
               (strip (nth i (Re.split _DATE_SPLIT_RE (strip s)) []))).
  { intros i. apply Forall_strip.
    pose proof (date_split_segments (strip s) 0 [] (Forall_nil _)) as Hall.
    fold (Re.split _DATE_SPLIT_RE (strip s)) in Hall.
    rewrite Forall_forall in Hall.
    destruct (nth_in_or_default i (Re.split _DATE_SPLIT_RE (strip s)) [])
      as [Hin | ->]; [now apply Hall | constructor]. }
  rewrite (parse_month_year_outside _ (Hn 0%nat)).
  destruct (1 <? _)%nat.
  - rewrite (parse_month_year_outside _ (Hn 1%nat)).
    now destruct (_ && _).
  - reflexivity.
Qed.

End NeverADate.

(** The condition holds in the database restricted to Basic Latin. *)
Lemma lower_above_basic_latin : lower_above_has_no_month_letter basic_latin.
Proof.
  intros whole i c x Hc [<- | []].
  unfold month_letter. apply not_true_is_false. intros H.
  apply existsb_exists in H as (key & Hkey & Hx).
  apply existsb_exists in Hx as (y & Hy & E). apply N.eqb_eq in E. subst y.
  cbn [MONTH_MAP map fst In] in Hkey.
  repeat (destruct Hkey as [<- | Hkey];
          [cbn in Hy; repeat (destruct Hy as [<- | Hy]; [lia|]); contradiction|]).
  contradiction.
Qed.

(** C1.  On every text of the form "Mon YYYY - Mon YYYY" the date
    range parser returns two empty strings, so neither is a year-month
    string, where the specification has two year-month strings in
    order: every letter and digit of the text is in the class of the
    separator and no segment is left to read.  The condition is on the
    Unicode database: the lower case of a code point above U+2014 has
    no letter of a month word. *)
Theorem parse_date_range_valid_input (U : Unicode) (s : str) :
  lower_above_has_no_month_letter U ->
  mon_yyyy_range s ->
  _parse_date_range (VStr s) = ([], [])
  /\ ~ year_month (fst (_parse_date_range (VStr s)))
  /\ ~ year_month (snd (_parse_date_range (VStr s)))
  /\ ~ date_range_claim s.
Proof.
  intros HU Hs.
  assert (E : _parse_date_range (VStr s) = ([], []))
    by now apply parse_date_range_never_a_date.
  assert (N : ~ year_month []).
  { intros (y & m & H & _). destruct y; discriminate. }
  split; [exact E|]. rewrite E. cbn [fst snd].
  split; [exact N|]. split; [exact N|].
  intros C. destruct (C Hs) as [H _]. rewrite E in H. exact (N H).
Qed.

Lemma parse_date_range_valid_input_witness :
  lower_above_has_no_month_letter basic_latin
  /\ mon_yyyy_range (u "Jun 2023 - Aug 2023")
  /\ @_parse_date_range basic_latin (VStr (u "Jun 2023 - Aug 2023"))
     = ([], [])
  /\ ~ @date_range_claim basic_latin (u "Jun 2023 - Aug 2023").
Proof.
  assert (H : mon_yyyy_range (u "Jun 2023 - Aug 2023")).
  { exists (u "Jun 2023"), (u "Aug 2023"). split; [reflexivity|]. split.
    - exists (u "Jun"), (u "2023"). repeat split; try reflexivity.
      + vm_compute. tauto.
      + repeat constructor.
    - exists (u "Aug"), (u "2023"). repeat split; try reflexivity.
      + vm_compute. tauto.
      + repeat constructor. }
  split; [exact lower_above_basic_latin|]. split; [exact H|].
  destruct (parse_date_range_valid_input basic_latin
              (u "Jun 2023 - Aug 2023") lower_above_basic_latin H)
    as (E & _ & _ & C).
  exact (conj E C).
Defined.

(** ** EntryConverters *)

Lemma lookup_setitem d k k' v :
  lookup k' (setitem d k v)
  = if str_eqb k k' then Some v else lookup k' d.
Proof.
  induction d as [|[k0 v0] d IH]; cbn [setitem lookup]; [reflexivity|].
  destruct (str_eqb k0 k) eqn:E; cbn [lookup].
  - apply str_eqb_eq in E. subst k0. now destruct (str_eqb k k').
  - rewrite IH. destruct (str_eqb k0 k') eqn:E'; [|reflexivity].
    apply str_eqb_eq in E'. subst k0.
    destruct (str_eqb k k') eqn:E2; [|reflexivity].
    apply str_eqb_eq in E2. subst k'.
    assert (str_eqb k k = true) by now apply str_eqb_eq. congruence.
Qed.


Lemma set_if_cons c k v k0 v0 d :
  str_eqb k0 (u k) = false ->
  set_if c k v ((k0, v0) :: d) = (k0, v0) :: set_if c k v d.
Proof. intros E. unfold set_if. destruct c; cbn [setitem]; now rewrite ?E. Qed.

Lemma forallb_setitem (P : str * value -> bool) d k v :
  forallb P d = true -> P (k, v) = true -> forallb P (setitem d k v) = true.
Proof.
  intros Hd Hv.
  induction d as [|[k0 v0] d IH]; cbn [setitem forallb]; [now rewrite Hv|].
  cbn [forallb] in Hd. apply andb_true_iff in Hd as [H0 Hd].
  destruct (str_eqb k0 k) eqn:E.
  - apply str_eqb_eq in E. subst k0. cbn [forallb]. now rewrite Hv, Hd.
  - cbn [forallb]. now rewrite H0, IH.
Qed.

Lemma forallb_set_if (P : str * value -> bool) c k v d :
  forallb P d = true -> (c = true -> P (u k, v) = true) ->
  forallb P (set_if c k v d) = true.
Proof.
  intros Hd Hv. unfold set_if. destruct c; [|exact Hd].
  apply forallb_setitem; auto.
Qed.

Lemma forallb_flat_map (A C : Type) (P : C -> bool) (f : A -> list C) l :
  (forall x, forallb P (f x) = true) -> forallb P (flat_map f l) = true.
Proof.
  intros H. induction l as [|x l IH]; cbn [flat_map]; [reflexivity|].
  now rewrite forallb_app, H, IH.
Qed.

Lemma is_texts_strs l :
  nonempty l = true -> Forall (fun s => nonempty s = true) l ->
  is_texts (strs l) = true.
Proof.
  intros Hl Hf. unfold strs, is_texts.
  apply andb_true_iff. split; [now destruct l|].
  induction Hf as [|s l Hs Hf IH]; [reflexivity|].
  cbn [map forallb is_text]. rewrite Hs. destruct l; [reflexivity|].
  now apply IH.
Qed.

Lemma entry_field_text k s :
  list_key (u k) = false -> nonempty s = true ->
  entry_field (u k, VStr s) = true.
Proof. intros Hk Hs. unfold entry_field. cbn [fst snd]. now rewrite Hk. Qed.

Lemma entry_field_texts k l :
  list_key (u k) = true -> nonempty l = true ->
  Forall (fun s => nonempty s = true) l ->
  entry_field (u k, strs l) = true.
Proof.
  intros Hk Hl Hf. unfold entry_field. cbn [fst snd]. rewrite Hk.
  now apply is_texts_strs.
Qed.

Lemma basics_field_text k s :
  str_eqb (u k) (u "location") = false ->
  str_eqb (u k) (u "profiles") = false ->
  str_eqb (u k) (u "email") || str_eqb (u k) (u "phone")
  || str_eqb (u k) (u "url") = true ->
  nonempty s = true -> basics_field (u k, VStr s) = true.
Proof. intros H1 H2 H3 Hs. unfold basics_field. now rewrite H1, H2, H3. Qed.

Lemma basics_field_location city region :
  nonempty city = true ->
  basics_field
    (u "location", VDict [(u "city", VStr city); (u "region", VStr region)])
  = true.
Proof. intros H. destruct city; [discriminate | reflexivity]. Qed.

Lemma basics_field_profiles l :
  nonempty l = true -> forallb is_profile l = true ->
  basics_field (u "profiles", VList l) = true.
Proof.
  intros H1 H2. unfold basics_field.
  change (str_eqb (u "profiles") (u "location")) with false.
  change (str_eqb (u "profiles") (u "profiles")) with true.
  cbv iota. now rewrite H1, H2.
Qed.

Lemma for_each_invariant (A B : Type) (P : B -> Prop)
    (body : B -> A -> result B) :
  (forall acc x acc', P acc -> body acc x = Ok acc' -> P acc') ->
  forall xs acc acc', P acc -> for_each body xs acc = Ok acc' -> P acc'.
Proof.
  intros Hb. induction xs as [|x xs IH]; intros acc acc' Hacc; cbn [for_each].
  - now intros [= <-].
  - destruct (body acc x) as [acc1|e] eqn:E; cbn [bind]; [|discriminate].
    apply IH. eapply Hb; eauto.
Qed.

Lemma fold_left_invariant (A B : Type) (P : B -> Prop) (step : B -> A -> B) :
  (forall acc x, P acc -> P (step acc x)) ->
  forall xs acc, P acc -> P (fold_left step xs acc).
Proof.
  intros Hs. induction xs as [|x xs IH]; intros acc Hacc; cbn [fold_left]; auto.
Qed.

Section ConverterProperties.
Context {U : Unicode} {B : Builtins}.

Lemma bullet_texts_nonempty entry l :
  _bullet_texts entry = Ok l -> Forall (fun s => nonempty s = true) l.
Proof.
  unfold _bullet_texts. destruct (iter _) as [bullets|]; cbn [bind];
    [|discriminate].
  intros [= <-]. apply fold_left_invariant; [|constructor].
  intros acc b Hacc. unfold bullet_step.
  destruct b; trivial. destruct (get d (u "text")); trivial.
  destruct (nonempty (strip s)) eqn:E; trivial.
  apply Forall_app. split; [exact Hacc | now constructor].
Qed.

Lemma tool_keywords_nonempty tools l :
  tool_keywords tools = Ok l -> Forall (fun s => nonempty s = true) l.
Proof.
  unfold tool_keywords. destruct (iter tools) as [items|]; cbn [bind];
    [|discriminate].
  intros [= <-].
  rewrite (filter_map_comm _ _ (fun t => strip (str_of t)) (@nonempty _)).
  apply Forall_filter.
Qed.

(** Closes the entry of a loop: the dict under construction has fields
    [entry_field], and it is appended when it is not empty. *)
Ltac close_entry Hout :=
  match goal with
  | |- context [if nonempty ?d then _ else _] =>
      let H := fresh "Hd" in
      assert (H : forallb entry_field d = true);
      [ repeat match goal with
          | |- forallb entry_field (set_if _ _ _ _) = true =>
              apply forallb_set_if;
              [|intros Hc;
                first [ apply entry_field_text; [reflexivity | exact Hc]
                      | apply entry_field_texts;
                        [reflexivity | exact Hc | assumption] ]]
          end;
        reflexivity
      | destruct (nonempty d) eqn:En;
        [ rewrite forallb_app, Hout; cbn [forallb andb is_entry];
          rewrite En, H; reflexivity
        | exact Hout ] ]
  end.

Lemma education_step_shape out entry :
  forallb is_entry out = true ->
  forallb is_entry (education_step out entry) = true.
Proof.
  intros Hout. destruct entry; try exact Hout. unfold education_step.
  destruct (_split_degree_title _) as [study_type area].
  destruct (_parse_date_range _) as [start_date end_date].
  cbv zeta. close_entry Hout.
Qed.

Lemma experience_step_shape out entry out' :
  forallb is_entry out = true -> experience_step out entry = Ok out' ->
  forallb is_entry out' = true.
Proof.
  intros Hout. unfold experience_step.
  destruct entry;
    try (match goal with |- Ok _ = _ -> _ => intros [= <-]; exact Hout end).
  destruct (_parse_date_range _) as [start_date end_date].
  destruct (_bullet_texts d) as [highlights|] eqn:Eh; cbn [bind];
    [|discriminate].
  destruct (tool_keywords _) as [keywords|] eqn:Ek; cbn [bind];
    [|discriminate].
  apply bullet_texts_nonempty in Eh. apply tool_keywords_nonempty in Ek.
  intros [= <-]. cbv zeta. close_entry Hout.
Qed.

Lemma project_step_shape out entry out' :
  forallb is_entry out = true -> project_step out entry = Ok out' ->
  forallb is_entry out' = true.
Proof.
  intros Hout. unfold project_step.
  destruct entry;
    try (match goal with |- Ok _ = _ -> _ => intros [= <-]; exact Hout end).
  destruct (_parse_date_range _) as [start_date end_date].
  destruct (_bullet_texts d) as [highlights|] eqn:Eh; cbn [bind];
    [|discriminate].
  destruct (tool_keywords _) as [keywords|] eqn:Ek; cbn [bind];
    [|discriminate].
  apply bullet_texts_nonempty in Eh. apply tool_keywords_nonempty in Ek.
  intros [= <-]. cbv zeta. close_entry Hout.
Qed.

End ConverterProperties.

Lemma Forall_filter_nonempty (l : list str) :
  Forall (fun s => nonempty s = true) (filter (@nonempty _) l).
Proof. apply Forall_filter. Qed.

Lemma parse_city_region_city s city region :
  _parse_city_region (VStr s) = (city, region) ->
  nonempty city || nonempty region = true -> nonempty city = true.
Proof.
  rewrite parse_city_region_segments.
  pose proof (Forall_filter_nonempty (map strip (split_char comma s))) as Hf.
  fold (location_segments s) in Hf.
  destruct (location_segments s) as [|a [|b l]]; intros [= <- <-].
  - discriminate.
  - intros _. now apply Forall_cons_iff in Hf.
  - intros _. now apply Forall_cons_iff in Hf.
Qed.

Section AssemblerProperties.
Context {U : Unicode} {B : Builtins}.

Lemma parse_link_profile_shape url :
  truthy (_parse_link_profile (VStr url)) = true ->
  is_profile (_parse_link_profile (VStr url)) = true.
Proof.
  unfold _parse_link_profile.
  destruct (strip url) as [|c t]; [discriminate|]. intros _.
  cbn [nonempty negb]. cbv zeta.
  destruct (contains _ _); [|destruct (contains _ _)]; reflexivity.
Qed.

Lemma convert_basics_shape basics :
  exists name rest,
    _convert_basics basics = (u "name", VStr name) :: rest
    /\ forallb basics_field rest = true.
Proof.
  unfold _convert_basics.
  destruct (_parse_city_region _) as [city region] eqn:Ecr. cbv zeta.
  rewrite !set_if_cons by reflexivity.
  eexists. eexists. split; [reflexivity|].
  repeat match goal with
    | |- forallb basics_field (set_if _ _ _ _) = true =>
        apply forallb_set_if; [|intros Hc]
    end;
    try (apply basics_field_text;
         [reflexivity | reflexivity | reflexivity | exact Hc]);
    try reflexivity.
  - apply basics_field_location.
    exact (parse_city_region_city _ _ _ Ecr Hc).
  - apply basics_field_profiles; [exact Hc|].
    apply (fold_left_invariant _ _ (fun l => forallb is_profile l = true));
      [|reflexivity].
    intros acc url Hacc.
    destruct (truthy (_parse_link_profile (VStr url))) eqn:Et; [|exact Hacc].
    rewrite forallb_app, Hacc. cbn [forallb andb].
    now rewrite parse_link_profile_shape.
Qed.

Lemma convert_education_shape entries l :
  _convert_education entries = Ok l -> forallb is_entry l = true.
Proof.
  unfold _convert_education. destruct (iter _) as [items|]; cbn [bind];
    [|discriminate].
  intros [= <-].
  apply (fold_left_invariant _ _ (fun l => forallb is_entry l = true));
    [|reflexivity].
  intros acc x. apply education_step_shape.
Qed.

Lemma convert_experience_shape entries l :
  _convert_experience entries = Ok l -> forallb is_entry l = true.
Proof.
  unfold _convert_experience. destruct (iter _) as [items|]; cbn [bind];
    [|discriminate].
  apply (for_each_invariant _ _ (fun l => forallb is_entry l = true));
    [|reflexivity].
  intros acc x acc'. apply experience_step_shape.
Qed.

Lemma convert_projects_shape entries l :
  _convert_projects entries = Ok l -> forallb is_entry l = true.
Proof.
  unfold _convert_projects. destruct (iter _) as [items|]; cbn [bind];
    [|discriminate].
  apply (for_each_invariant _ _ (fun l => forallb is_entry l = true));
    [|reflexivity].
  intros acc x acc'. apply project_step_shape.
Qed.

Lemma category_keywords_nonempty v :
  Forall (fun s => nonempty s = true) (category_keywords v).
Proof. unfold category_keywords. destruct v; apply Forall_filter. Qed.

Lemma is_skill_category name l :
  is_texts (strs l) = true ->
  is_skill (VDict [ (u "name", VStr name);
                    (u "level", VStr []);
                    (u "keywords", strs l) ]) = true.
Proof. intros H. exact H. Qed.

Lemma skill_category_shape item :
  forallb is_skill (skill_category item) = true.
Proof.
  unfold skill_category. pose proof (category_keywords_nonempty (snd item)) as Hk.
  assert (H : forallb is_skill
                match category_keywords (snd item) with
                | [] => []
                | keywords =>
                    [VDict [ (u "name", VStr (display_name (fst item)));
                             (u "level", VStr []);
                             (u "keywords", VList (map VStr keywords)) ]]
                end = true).
  { destruct (category_keywords (snd item)) as [|k ks] eqn:E; [reflexivity|].
    cbn [forallb]. rewrite andb_true_r.
    apply (is_skill_category _ (k :: ks)).
    now apply is_texts_strs. }
  destruct (snd item); first [exact H | reflexivity].
Qed.

Lemma convert_skills_shape skills :
  forallb is_skill (_convert_skills skills) = true.
Proof.
  destruct skills; try reflexivity. unfold _convert_skills.
  rewrite skill_loop_spec. cbn [app]. apply forallb_flat_map.
  intros item. apply skill_category_shape.
Qed.

(** C6, amended.  Whenever the assembler returns a document, it has
    exactly the keys $schema, basics, work, education, skills and
    projects, the last four with lists.  The basics begin with the
    name, a string that may be empty; their other fields are email,
    phone and url, strings that are not empty, the location, exactly a
    city that is not empty and a region that may be, and the profiles,
    a list that is not empty of dicts that are exactly a network, a
    user name and a url, strings of which the user name alone may be
    empty.  Every entry of work, education and projects is a dict that
    is not empty; its highlights and keywords are lists that are not
    empty of strings that are not empty, and every other field is a
    string that is not empty.  A category of the skills is exactly a
    name, a string, the empty level and keywords, a list that is not
    empty of strings that are not empty.  No field is None. *)
Theorem resume_document_shape (data : value) :
  match resume_of data with
  | Ok doc => canonical_document doc
  | Raise _ => True
  end.
Proof.
  destruct data; try exact I. unfold resume_of. cbv zeta.
  destruct (_convert_education _) as [education|] eqn:Ee; cbn [bind];
    [|exact I].
  destruct (_convert_experience _) as [work|] eqn:Ew; cbn [bind]; [|exact I].
  destruct (_convert_projects _) as [projects|] eqn:Ep; cbn [bind]; [|exact I].
  destruct (convert_basics_shape (py_or (get d (u "basics")) (VDict [])))
    as (name & rest & Hb & Hrest).
  unfold canonical_document.
  exists (_convert_basics (py_or (get d (u "basics")) (VDict []))), work,
    education, (_convert_skills (py_or (get d (u "skills")) (VDict []))),
    projects, name, rest.
  split; [reflexivity|]. split; [exact Hb|]. split; [exact Hrest|].
  split; [eapply convert_experience_shape; eauto|].
  split; [eapply convert_education_shape; eauto|].
  split; [apply convert_skills_shape|].
  eapply convert_projects_shape; eauto.
Qed.

End AssemblerProperties.

(** C6, as stated, fails: the level of a category of the skills is
    the empty string, a field that is present and empty. *)
Lemma resume_level_is_empty :
  ~ (forall (U : Unicode) (B : Builtins) (doc : value),
       resume_of
         (VDict [(u "skills",
                  VDict [(u "languages", VList [VStr (u "Python")])])])
       = Ok doc ->
       all_filled doc).
Proof.
  intros H.
  specialize (H basic_latin
                {| repr_ext := fun _ => [];
                   json_loads := fun _ => Raise JSONDecodeError;
                   json_dumps := fun _ => [] |} _ eq_refl).
  destruct H as (basics & work & education & skills & projects & name & rest
                 & Hdoc & _ & _ & _ & _ & Hs & _).
  vm_compute in Hdoc. injection Hdoc as _ _ _ Hskills _. subst skills.
  vm_compute in Hs. discriminate.
Qed.

(** The fields of the basics that may be empty. *)
Example basics_region_empty (U : Unicode) (B : Builtins) :
  lookup (u "location")
    (_convert_basics (VDict [(u "location", VStr (u "Remote"))]))
  = Some (VDict [(u "city", VStr (u "Remote")); (u "region", VStr [])]).
Proof. reflexivity. Qed.

Example profile_username_empty (U : Unicode) :
  _parse_link_profile (VStr (u "https://"))
  = profile (u "Profile") [] (u "https://").
Proof. reflexivity. Qed.

(** The name of a category is empty when the key is. *)
Example skill_name_empty (U : Unicode) (B : Builtins) :
  _convert_skills (VDict [([], VList [VStr (u "Python")])])
  = [VDict [ (u "name", VStr []);
             (u "level", VStr []);
             (u "keywords", VList [VStr (u "Python")]) ]].
Proof. reflexivity. Qed.

(** ** The location of an entry *)


Lemma lookup_without k k' d :
  str_eqb k k' = false -> lookup k' (without k d) = lookup k' d.
Proof.
  intros E.
  induction d as [|[k0 v0] d IH]; cbn [without filter lookup fst];
    [reflexivity|].
  destruct (str_eqb k0 k) eqn:E0; cbn [negb lookup].
  - apply str_eqb_eq in E0. subst k0. now rewrite E.
  - fold (without k d). now rewrite IH.
Qed.

Lemma get_without k k' d :
  str_eqb k k' = false -> get (without k d) k' = get d k'.
Proof. intros E. unfold get. now rewrite lookup_without. Qed.


Section LocationProperties.
Context {U : Unicode} {B : Builtins}.










End LocationProperties.



(** ** When the assembler returns *)

Lemma iter_raises v e : iter v = Raise e -> e = TypeError.
Proof. destruct v; cbn; congruence. Qed.

Lemma py_or_idem v w : py_or (py_or v w) w = py_or v w.
Proof.
  unfold py_or. destruct (truthy v) eqn:E; [now rewrite E|].
  now destruct (truthy w).
Qed.

Section Returns.
Context {U : Unicode} {B : Builtins}.

Lemma bullet_texts_returns d :
  match _bullet_texts d with
  | Ok _ => iterable (get d (u "bullets")) = true
  | Raise e => e = TypeError /\ iterable (get d (u "bullets")) = false
  end.
Proof.
  unfold _bullet_texts, iterable.
  destruct (iter _) as [items|e] eqn:E; cbn [bind]; [reflexivity|].
  split; [now apply iter_raises in E | reflexivity].
Qed.

Lemma tool_keywords_returns v :
  match tool_keywords (py_or v (VList [])) with
  | Ok _ => iterable v = true
  | Raise e => e = TypeError /\ iterable v = false
  end.
Proof.
  unfold tool_keywords, iterable.
  destruct (iter _) as [items|e] eqn:E; cbn [bind]; [reflexivity|].
  split; [now apply iter_raises in E | reflexivity].
Qed.

Lemma experience_step_returns out entry :
  match experience_step out entry with
  | Ok _ => entry_iterable entry = true
  | Raise e => e = TypeError /\ entry_iterable entry = false
  end.
Proof.
  unfold experience_step.
  destruct entry; try reflexivity.
  destruct (_parse_date_range _) as [start_date end_date].
  pose proof (bullet_texts_returns d) as Hb.
  pose proof (tool_keywords_returns (get d (u "tools"))) as Ht.
  cbn [entry_iterable].
  destruct (_bullet_texts d); cbn [bind].
  - rewrite Hb. destruct (tool_keywords _); cbn [bind]; [exact Ht|].
    now destruct Ht as [-> ->].
  - now destruct Hb as [-> ->].
Qed.

Lemma project_step_returns out entry :
  match project_step out entry with
  | Ok _ => entry_iterable entry = true
  | Raise e => e = TypeError /\ entry_iterable entry = false
  end.
Proof.
  unfold project_step.
  destruct entry; try reflexivity.
  destruct (_parse_date_range _) as [start_date end_date].
  pose proof (bullet_texts_returns d) as Hb.
  pose proof (tool_keywords_returns (get d (u "tools"))) as Ht.
  cbn [entry_iterable].
  destruct (_bullet_texts d); cbn [bind].
  - rewrite Hb. destruct (tool_keywords _); cbn [bind]; [exact Ht|].
    now destruct Ht as [-> ->].
  - now destruct Hb as [-> ->].
Qed.

Lemma for_each_returns (body : list value -> value -> result (list value)) :
  (forall out entry,
     match body out entry with
     | Ok _ => entry_iterable entry = true
     | Raise e => e = TypeError /\ entry_iterable entry = false
     end) ->
  forall items out,
    match for_each body items out with
    | Ok _ => forallb entry_iterable items = true
    | Raise e => e = TypeError /\ forallb entry_iterable items = false
    end.
Proof.
  intros Hb. induction items as [|x items IH]; intros out;
    cbn [for_each forallb]; [reflexivity|].
  specialize (Hb out x). destruct (body out x) as [out'|e]; cbn [bind].
  - rewrite Hb. exact (IH out').
  - now destruct Hb as [-> ->].
Qed.

Lemma entries_returns (body : list value -> value -> result (list value)) v :
  (forall out entry,
     match body out entry with
     | Ok _ => entry_iterable entry = true
     | Raise e => e = TypeError /\ entry_iterable entry = false
     end) ->
  match (items <- iter (py_or (py_or v (VList [])) (VList [])) ;;
         for_each body items []) with
  | Ok _ => entries_iterable v = true
  | Raise e => e = TypeError /\ entries_iterable v = false
  end.
Proof.
  intros Hb. rewrite py_or_idem. unfold entries_iterable.
  destruct (iter _) as [items|e] eqn:E; cbn [bind].
  - apply for_each_returns, Hb.
  - split; [now apply iter_raises in E | reflexivity].
Qed.

(** The assembler returns a document for a record exactly when the
    education can be visited and the bullets and tools of every
    experience and project entry can; otherwise it raises TypeError. *)
Lemma resume_of_returns d :
  match resume_of (VDict d) with
  | Ok _ =>
      iterable (get d (u "education"))
      && entries_iterable (get d (u "experience"))
      && entries_iterable (get d (u "projects")) = true
  | Raise e =>
      e = TypeError
      /\ iterable (get d (u "education"))
         && entries_iterable (get d (u "experience"))
         && entries_iterable (get d (u "projects")) = false
  end.
Proof.
  unfold resume_of. cbv zeta.
  pose proof (entries_returns experience_step (get d (u "experience"))
                experience_step_returns) as Hw.
  pose proof (entries_returns project_step (get d (u "projects"))
                project_step_returns) as Hp.
  fold (_convert_experience (py_or (get d (u "experience")) (VList []))) in Hw.
  fold (_convert_projects (py_or (get d (u "projects")) (VList []))) in Hp.
  unfold _convert_education. rewrite py_or_idem. unfold iterable.
  destruct (iter (py_or (get d (u "education")) (VList []))) as [items|e] eqn:E;
    cbn [bind andb].
  - destruct (_convert_experience _); cbn [bind].
    + rewrite Hw. destruct (_convert_projects _); cbn [bind]; [exact Hp|].
      now destruct Hp as [-> ->].
    + destruct Hw as [-> ->]. now split.
  - split; [now apply iter_raises in E | reflexivity].
Qed.

End Returns.

(** C4.  A document whose education is the number 5 makes the
    conversion raise TypeError, and so does an experience entry whose
    tools are a number or a project entry whose bullets are a boolean,
    although the text is JSON and the document is a record; the basics
    and the skills of a wrong type are replaced by empty ones.  For a
    record the conversion raises exactly when such a value cannot be
    visited by a loop, and [to_json_resume] raises what [resume_of]
    raises. *)
Theorem resume_of_raises_on_number (U : Unicode) (B : Builtins) :
  resume_of (VDict [(u "education", VInt 5)]) = Raise TypeError
  /\ resume_of (VDict [(u "experience", VList [VDict [(u "tools", VInt 5)]])])
     = Raise TypeError
  /\ resume_of (VDict [(u "projects", VList [VDict [(u "bullets", VBool true)]])])
     = Raise TypeError
  /\ resume_of (VDict [(u "skills", VInt 5); (u "basics", VInt 5)])
     = Ok (document [(u "name", VStr [])] [] [] [] [])
  /\ (forall d : dict,
        match resume_of (VDict d) with
        | Ok _ =>
            iterable (get d (u "education"))
            && entries_iterable (get d (u "experience"))
            && entries_iterable (get d (u "projects")) = true
        | Raise e =>
            e = TypeError
            /\ iterable (get d (u "education"))
               && entries_iterable (get d (u "experience"))
               && entries_iterable (get d (u "projects")) = false
        end)
  /\ (forall s : str,
        to_json_resume s =
        match json_loads s with
        | Raise e => Raise e
        | Ok data =>
            match resume_of data with
            | Ok resume => Ok (json_dumps resume)
            | Raise e => Raise e
            end
        end).
Proof.
  do 4 (split; [reflexivity|]).
  split; [exact resume_of_returns | reflexivity].
Qed.

(** * Further properties of the code *)

(** ** Strings once more *)

Lemma strip_idem s : strip (strip s) = strip s.
Proof. apply strip_clean; [apply strip_lclean | apply strip_rclean]. Qed.

Lemma rstrip_idem s : rstrip (rstrip s) = rstrip s.
Proof. apply rclean_rstrip, rstrip_rclean. Qed.

Lemma rstrip_space s c : isspace c = true -> rstrip (s ++ [c]) = rstrip s.
Proof.
  intros Hc. unfold rstrip. rewrite rev_app_distr. cbn [rev app lstrip].
  now rewrite Hc.
Qed.

(** ** [write_to_file] *)

(** X16.  The text [write_to_file] stores ends with a newline that no
    white space precedes, its trimmed form is that of the content, and
    storing a stored text again leaves it as it is. *)
Theorem written_text_normal (content : str) :
  (exists body, written_text content = body ++ [10] /\ rclean body)
  /\ rstrip (written_text content) = rstrip content
  /\ written_text (written_text content) = written_text content.
Proof.
  assert (H : rstrip (written_text content) = rstrip content).
  { unfold written_text. rewrite rstrip_space by reflexivity.
    apply rstrip_idem. }
  split; [|split; [exact H|]].
  - exists (rstrip content). split; [reflexivity | apply rstrip_rclean].
  - unfold written_text at 1. now rewrite H.
Qed.

(** ** [_split_degree_title]: what the two fields are like *)

Lemma lstrip_spaces s :
  exists w, s = w ++ lstrip s /\ Forall (fun c => isspace c = true) w.
Proof.
  induction s as [|c s (w & IH & Hw)]; cbn [lstrip].
  - exists []. now split.
  - destruct (isspace c) eqn:E; [|exists []; now split].
    exists (c :: w). split; [cbn [app]; now rewrite <- IH | now constructor].
Qed.

(** The separator ends with white space. *)
Lemma after_in_sep s r :
  after_in s = Some r -> exists m, s = m ++ r /\ ~ rclean m.
Proof.
  unfold after_in. destruct s as [|c s]; [discriminate|].
  destruct (isspace c) eqn:Ec; [|discriminate].
  cbn [lstrip]. rewrite Ec.
  destruct (lstrip_spaces s) as (w1 & Hs & _).
  destruct (lstrip s) as [|i [|n [|w t]]] eqn:El; try discriminate.
  destruct (Re.ignorecase 105 i && Re.ignorecase 110 n) eqn:Ein;
    cbn [andb]; [|discriminate].
  destruct (isspace w) eqn:Ew; [|discriminate]. intros [= <-].
  destruct (lstrip_spaces t) as (w2 & Ht & Hw2).
  exists (c :: w1 ++ i :: n :: w :: w2). split.
  - rewrite Hs at 1. rewrite Ht at 1. cbn [app].
    rewrite <- app_assoc. reflexivity.
  - unfold rclean. cbn [rev]. rewrite rev_app_distr. cbn [rev].
    apply Forall_rev in Hw2. rewrite <- !app_assoc.
    destruct (rev w2) as [|x l]; cbn [app lclean].
    + congruence.
    + apply Forall_cons_iff in Hw2 as [Hx _]. congruence.
Qed.

Lemma cut_in_sep t : forall a r,
  cut_in t = Some (a, r) -> exists m, t = a ++ m ++ r /\ ~ rclean m.
Proof.
  induction t as [|c t IH]; intros a r; cbn [cut_in].
  - cbn. discriminate.
  - destruct (after_in (c :: t)) as [r'|] eqn:Ea.
    + intros [= <- <-]. exact (after_in_sep _ _ Ea).
    + destruct (cut_in t) as [[a' r']|]; [|discriminate].
      intros [= <- <-]. destruct (IH _ _ eq_refl) as (m & Ht & Hm).
      exists m. split; [cbn [app]; now rewrite <- Ht | exact Hm].
Qed.

Lemma after_in_space c s r : after_in (c :: s) = Some r -> isspace c = true.
Proof. unfold after_in. now destruct (isspace c). Qed.

(** In a string without white space at its ends, what precedes and
    what follows the first occurrence is not empty. *)
Lemma cut_in_nonempty t a r :
  lclean t -> rclean t -> cut_in t = Some (a, r) -> a <> [] /\ r <> [].
Proof.
  intros Hl Hr Hc. split.
  - intros ->. apply cut_in_nil in Hc. destruct t as [|c t]; [discriminate|].
    apply after_in_space in Hc. cbn in Hl. congruence.
  - intros ->. destruct (cut_in_sep _ _ _ Hc) as (m & Ht & Hm).
    rewrite app_nil_r in Ht. subst t. now apply rclean_app_r in Hr.
Qed.

(** X13.  For every title the study type is empty exactly when the
    title is blank, the area is empty exactly when the trimmed title
    has no occurrence of the word "in" between white space, and
    neither field begins or ends with white space. *)
Theorem split_degree_title_fields (title : str) :
  (fst (_split_degree_title (VStr title)) = [] <-> strip title = [])
  /\ (snd (_split_degree_title (VStr title)) = []
      <-> cut_in (strip title) = None)
  /\ strip (fst (_split_degree_title (VStr title)))
     = fst (_split_degree_title (VStr title))
  /\ strip (snd (_split_degree_title (VStr title)))
     = snd (_split_degree_title (VStr title)).
Proof.
  rewrite split_degree_title_cut. unfold degree_two_fields.
  pose proof (strip_lclean title) as Hl. pose proof (strip_rclean title) as Hr.
  destruct (cut_in (strip title)) as [[a r]|] eqn:Ec; cbn [fst snd].
  - destruct (cut_in_nonempty _ _ _ Hl Hr Ec) as [Ha Hne].
    destruct (cut_in_parts _ _ _ Ec) as ((m & Hm) & Hlr & Hra & Hla).
    assert (Hrr : rclean r).
    { rewrite Hm, app_assoc in Hr. now apply rclean_app_r in Hr. }
    assert (Ht : strip title <> []).
    { intros E. rewrite E in Ec. discriminate. }
    split; [tauto|].
    destruct (cut_in r) as [[a2 r2]|] eqn:Ec2.
    + destruct (cut_in_nonempty _ _ _ Hlr Hrr Ec2) as [Ha2 _].
      destruct (cut_in_parts _ _ _ Ec2) as (_ & _ & Hra2 & Hla2).
      split; [split; [tauto | discriminate]|].
      split; apply strip_clean; auto.
    + split; [split; [tauto | discriminate]|].
      split; apply strip_clean; auto.
  - split; [tauto|]. split; [tauto|].
    split; [apply strip_idem | reflexivity].
Qed.

(** ** [_parse_city_region]: a round trip *)

Lemma split_char_app sep a b :
  ~ In sep a -> split_char sep (a ++ sep :: b) = a :: split_char sep b.
Proof.
  induction a as [|c a IH]; intros Hn; cbn [app split_char].
  - now rewrite N.eqb_refl.
  - assert (E : (c =? sep) = false)
      by (apply N.eqb_neq; intros ->; apply Hn; now left).
    rewrite E, IH; [reflexivity|]. intros H. apply Hn. now right.
Qed.

Lemma split_char_none sep a : ~ In sep a -> split_char sep a = [a].
Proof.
  induction a as [|c a IH]; intros Hn; cbn [split_char]; [reflexivity|].
  assert (E : (c =? sep) = false)
    by (apply N.eqb_neq; intros ->; apply Hn; now left).
  rewrite E, IH; [reflexivity|]. intros H. apply Hn. now right.
Qed.

(** X14.  A city and a region that are not empty, have no comma and no
    white space at their ends are read back from "city, region". *)
Theorem parse_city_region_round_trip (city region : str) :
  city <> [] -> region <> [] ->
  ~ In comma city -> ~ In comma region ->
  strip city = city -> strip region = region ->
  _parse_city_region (VStr (city ++ [comma; space] ++ region)) = (city, region).
Proof.
  intros Hc Hr Hnc Hnr Hsc Hsr.
  rewrite parse_city_region_segments. unfold location_segments.
  cbn [app]. rewrite split_char_app by exact Hnc.
  rewrite split_char_none.
  2:{ intros [H|H]; [discriminate | contradiction]. }
  cbn [map]. assert (E : strip (space :: region) = region).
  { unfold strip in *. cbn [lstrip]. exact Hsr. }
  rewrite E, Hsc. cbn [filter].
  destruct city; [contradiction|]. destruct region; [contradiction|].
  reflexivity.
Qed.

Lemma parse_city_region_round_trip_witness :
  _parse_city_region
    (VStr (u "North Brunswick" ++ [comma; space] ++ u "NJ"))
  = (u "North Brunswick", u "NJ").
Proof.
  apply parse_city_region_round_trip;
    try discriminate; try reflexivity;
    vm_compute; intuition discriminate.
Defined.

(** ** [_parse_link_profile]: the stored URL *)

(** X15.  For a URL that is not blank the profile holds the trimmed
    URL and a user name without a slash, and parsing the stored URL
    again gives the same profile. *)
Theorem parse_link_profile_fixed (U : Unicode) (url : str) :
  strip url <> [] ->
  exists network username,
    _parse_link_profile (VStr url) = profile network username (strip url)
    /\ ~ In slash username
    /\ _parse_link_profile (VStr (strip url))
       = profile network username (strip url).
Proof.
  intros Hne. unfold _parse_link_profile. rewrite strip_idem.
  destruct (strip url) as [|c t] eqn:Et; [contradiction|].
  cbn [nonempty negb]. cbv zeta. eexists. eexists.
  split; [reflexivity|]. split; [|reflexivity].
  pose proof (last_segment_spec (c :: t)) as [Hs _].
  unfold last_segment, after_scheme in Hs. unfold split_max1.
  destruct (split_once (u "://") (c :: t)) as [[a b]|]; cbn [last];
    destruct (filter _ _); cbn [nonempty]; trivial; intros [].
Qed.

Lemma parse_link_profile_fixed_witness :
  exists network username,
    @_parse_link_profile basic_latin (VStr (u " https://github.com/PCosby/ "))
    = profile network username (strip (u " https://github.com/PCosby/ "))
    /\ ~ In slash username
    /\ @_parse_link_profile basic_latin
         (VStr (strip (u " https://github.com/PCosby/ ")))
       = profile network username (strip (u " https://github.com/PCosby/ ")).
Proof.
  apply (parse_link_profile_fixed basic_latin). vm_compute. discriminate.
Defined.

(** ** [_bullet_texts] *)

Section BulletTexts.
Context {U : Unicode} {B : Builtins}.

Lemma bullet_step_text out b : bullet_step out b = out ++ bullet_text b.
Proof.
  unfold bullet_step, bullet_text.
  destruct b; try (now rewrite app_nil_r).
  destruct (get d (u "text")); try (now rewrite app_nil_r).
  destruct (nonempty (strip s)); [reflexivity | now rewrite app_nil_r].
Qed.

Lemma bullet_loop_texts bullets : forall out,
  fold_left bullet_step bullets out = out ++ flat_map bullet_text bullets.
Proof.
  induction bullets as [|b bullets IH]; intros out; cbn [fold_left flat_map].
  - now rewrite app_nil_r.
  - now rewrite IH, bullet_step_text, app_assoc.
Qed.

Lemma bullet_text_trimmed b :
  Forall (fun t => t <> [] /\ strip t = t) (bullet_text b).
Proof.
  unfold bullet_text. destruct b; try constructor.
  destruct (get d (u "text")); try constructor.
  destruct (nonempty (strip s)) eqn:E; constructor; [|constructor].
  split; [now destruct (strip s) | apply strip_idem].
Qed.

(** X3.  The highlights of an entry are the trimmed texts of its
    bullets, in their order, without the bullets that are not dicts,
    whose text is not a string or is blank; no highlight is empty or
    has white space at its ends; bullets that cannot be visited raise
    TypeError. *)
Theorem bullet_texts_spec (entry : dict) :
  match _bullet_texts entry,
        iter (py_or (get entry (u "bullets")) (VList [])) with
  | Ok highlights, Ok bullets =>
      highlights = flat_map bullet_text bullets
      /\ Forall (fun t => t <> [] /\ strip t = t) highlights
  | Raise e, Raise _ => e = TypeError
  | _, _ => False
  end.
Proof.
  unfold _bullet_texts.
  destruct (iter _) as [bullets|e] eqn:E; cbn [bind].
  - rewrite bullet_loop_texts. cbn [app]. split; [reflexivity|].
    apply Forall_flat_map, Forall_forall. intros b _.
    apply bullet_text_trimmed.
  - now apply iter_raises in E.
Qed.

End BulletTexts.

(** ** [_parse_month_year] on a month word and a year *)

Lemma month_key_letters k :
  In k (map fst MONTH_MAP) ->
  k <> [] /\ Forall (fun c => ascii_islower c = true) k.
Proof.
  cbn [MONTH_MAP map fst In].
  intros H; repeat (destruct H as [<- | H];
    [split; [discriminate | repeat constructor]|]); contradiction.
Qed.

Lemma lookup_of_In (A : Type) k (d : list (str * A)) :
  In k (map fst d) -> exists v, lookup k d = Some v.
Proof.
  induction d as [|[k' v'] d IH]; cbn [map fst In lookup]; [contradiction|].
  intros [-> | H].
  - assert (E : str_eqb k k = true) by now apply str_eqb_eq.
    rewrite E. eauto.
  - destruct (str_eqb k' k); eauto.
Qed.

Lemma split_ws_go_run a : forall cur s,
  Forall (fun c => isspace c = false) a ->
  split_ws_go cur (a ++ s) = split_ws_go (rev a ++ cur) s.
Proof.
  induction a as [|c a IH]; intros cur s Ha; [reflexivity|].
  apply Forall_cons_iff in Ha as [Hc Ha]. cbn [app split_ws_go].
  rewrite Hc, IH by exact Ha. cbn [rev]. now rewrite <- app_assoc.
Qed.

Lemma split_ws_two a b :
  a <> [] -> b <> [] ->
  Forall (fun c => isspace c = false) a ->
  Forall (fun c => isspace c = false) b ->
  split_ws (a ++ [space] ++ b) = [a; b].
Proof.
  intros Ha Hb Fa Fb. unfold split_ws.
  rewrite split_ws_go_run by exact Fa. rewrite app_nil_r.
  cbn [app split_ws_go]. change (isspace space) with true. cbv iota.
  destruct (rev a) as [|x l] eqn:Er.
  { apply (f_equal (@rev _)) in Er. rewrite rev_involutive in Er.
    contradiction. }
  rewrite <- Er, rev_involutive. f_equal.
  rewrite <- (app_nil_r b) at 1. rewrite split_ws_go_run by exact Fb.
  rewrite app_nil_r. cbn [split_ws_go].
  destruct (rev b) as [|y m] eqn:Eb.
  { apply (f_equal (@rev _)) in Eb. rewrite rev_involutive in Eb.
    contradiction. }
  now rewrite <- Eb, rev_involutive.
Qed.

Lemma search_skip p re a : forall s,
  Forall (fun c => p c = false) a ->
  Re.search (Re.Chr p :: re) (a ++ s)
  = option_map (fun m => (length a + fst m, snd m)%nat)
      (Re.search (Re.Chr p :: re) s).
Proof.
  induction a as [|c a IH]; intros s Ha.
  - cbn [app length]. now destruct (Re.search _ s) as [[i n]|].
  - apply Forall_cons_iff in Ha as [Hc Ha].
    cbn [app Re.search Re.match_len]. rewrite Hc, IH by exact Ha.
    now destruct (Re.search _ s) as [[i n]|].
Qed.

Lemma search_here re s n :
  Re.match_len re s = Some n -> Re.search re s = Some (0%nat, n).
Proof. intros H. destruct s; cbn [Re.search]; now rewrite H. Qed.

Lemma match_len_all p s : forall rest,
  Forall (fun c => p c = true) s ->
  Re.match_len (repeat (Re.Chr p) (length s)) (s ++ rest) = Some (length s).
Proof.
  induction s as [|c s IH]; intros rest Hs; [reflexivity|].
  apply Forall_cons_iff in Hs as [Hc Hs].
  cbn [length repeat app Re.match_len]. now rewrite Hc, IH.
Qed.

Lemma filter_all (A : Type) (f : A -> bool) l :
  Forall (fun x => f x = true) l -> filter f l = l.
Proof.
  induction 1 as [|x l Hx _ IH]; cbn [filter]; [reflexivity|].
  now rewrite Hx, IH.
Qed.

Lemma filter_none (A : Type) (f : A -> bool) l :
  Forall (fun x => f x = false) l -> filter f l = [].
Proof.
  induction 1 as [|x l Hx _ IH]; cbn [filter]; [reflexivity|].
  now rewrite Hx.
Qed.

Lemma lclean_app a b : a <> [] -> lclean a -> lclean (a ++ b).
Proof. destruct a; [contradiction | trivial]. Qed.

Lemma rclean_app b a : b <> [] -> rclean b -> rclean (a ++ b).
Proof.
  intros Hb. unfold rclean. rewrite rev_app_distr.
  destruct (rev b) eqn:E; [|trivial].
  apply (f_equal (@rev _)) in E. rewrite rev_involutive in E. contradiction.
Qed.

Section MonthYear.
Context {U : Unicode}.

Lemma alpha_facts c :
  ascii_isalpha c = true ->
  c < 128 /\ isspace c = false /\ (c =? comma) = false
  /\ isdecimal c = false /\ isword c = true.
Proof.
  intros H. unfold isdecimal, isword, isalnum.
  assert (Hc : c < 128).
  { unfold ascii_isalpha, ascii_isupper, ascii_islower in H. b2p H. lia. }
  assert (E : (c <? 128) = true) by now apply N.ltb_lt.
  rewrite E, H. cbn [orb]. repeat split; trivial.
  - apply not_true_is_false. intros Hs.
    unfold isspace, ascii_isalpha, ascii_isupper, ascii_islower in *.
    b2p H; b2p Hs. lia.
  - apply N.eqb_neq.
    unfold ascii_isalpha, ascii_isupper, ascii_islower, comma in *.
    b2p H. lia.
  - apply not_true_is_false. intros Hd.
    unfold ascii_isdigit, ascii_isalpha, ascii_isupper, ascii_islower in *.
    b2p H; b2p Hd. lia.
Qed.

Lemma punct_facts c :
  month_punct c = true ->
  isspace c = false /\ (c =? comma) = false
  /\ isdecimal c = false /\ isword c = false.
Proof.
  unfold month_punct, isdecimal, isword, isalnum. intros H.
  apply andb_true_iff in H as [H Hcomma].
  apply andb_true_iff in H as [H Hunder].
  apply andb_true_iff in H as [H Halnum].
  apply andb_true_iff in H as [Hlt Hspace].
  apply negb_true_iff in Hcomma, Hunder, Halnum, Hspace.
  rewrite Hlt, Halnum, Hunder. cbn [orb]. repeat split; trivial.
  apply orb_false_iff in Halnum. tauto.
Qed.

Lemma digit_facts c :
  ascii_isdigit c = true ->
  isspace c = false /\ (c =? comma) = false /\ isdecimal c = true.
Proof.
  intros H. unfold isdecimal.
  assert (Hc : c < 128) by (unfold ascii_isdigit in H; b2p H; lia).
  assert (E : (c <? 128) = true) by now apply N.ltb_lt.
  rewrite E, H. repeat split.
  - apply not_true_is_false. intros Hs.
    unfold isspace, ascii_isdigit in *. b2p H; b2p Hs. lia.
  - apply N.eqb_neq. unfold ascii_isdigit, comma in *. b2p H. lia.
Qed.

Lemma month_word_letters mon :
  In (map ascii_lower mon) (map fst MONTH_MAP) ->
  mon <> [] /\ Forall (fun c => ascii_isalpha c = true) mon.
Proof.
  intros H. apply month_key_letters in H as [Hne Hl]. split.
  - intros ->. now apply Hne.
  - apply Forall_map in Hl. revert Hl. apply Forall_impl. intros c Hc.
    unfold ascii_lower in Hc. unfold ascii_isalpha.
    destruct (ascii_isupper c); [reflexivity | now rewrite Hc, orb_true_r].
Qed.

(** X1.  A month word of the table in any case, followed or not by
    Basic Latin punctuation other than a comma or an underscore, then
    a space and four digits: the month and year parser returns the four
    digits and the number of the month. *)
Theorem parse_month_year_reads (mon punct yyyy : str) :
  In (map ascii_lower mon) (map fst MONTH_MAP) ->
  Forall (fun c => month_punct c = true) punct ->
  length yyyy = 4%nat ->
  Forall (fun c => ascii_isdigit c = true) yyyy ->
  exists month,
    lookup (map ascii_lower mon) MONTH_MAP = Some month
    /\ In month month_numbers
    /\ _parse_month_year (VStr ((mon ++ punct) ++ [space] ++ yyyy))
       = (yyyy, month).
Proof.
  intros Hmon Hp Hlen Hy.
  destruct (lookup_of_In _ _ _ Hmon) as [month Hm].
  destruct (month_map_numbers month (lookup_In _ _ _ _ Hm)) as [Hnum Hne].
  exists month. split; [exact Hm|]. split; [exact Hnum|].
  destruct (month_word_letters mon Hmon) as [Hmne Hal].
  assert (Hyne : yyyy <> []) by (intros ->; discriminate).
  set (h := mon ++ punct).
  assert (Hh : Forall (fun c => isspace c = false /\ (c =? comma) = false
                               /\ isdecimal c = false) h).
  { apply Forall_app. split.
    - revert Hal. apply Forall_impl. intros c Hc.
      destruct (alpha_facts c Hc) as (_ & ? & ? & ? & _). auto.
    - revert Hp. apply Forall_impl. intros c Hc.
      destruct (punct_facts c Hc) as (? & ? & ? & _). auto. }
  assert (Hhne : h <> []).
  { unfold h. destruct mon; [contradiction | discriminate]. }
  assert (Hyf : Forall (fun c => isspace c = false /\ (c =? comma) = false
                                /\ isdecimal c = true) yyyy).
  { revert Hy. apply Forall_impl. intros c Hc. now apply digit_facts. }
  assert (Hhs : Forall (fun c => isspace c = false) h)
    by (revert Hh; apply Forall_impl; tauto).
  assert (Hys : Forall (fun c => isspace c = false) yyyy)
    by (revert Hyf; apply Forall_impl; tauto).
  unfold _parse_month_year.
  (* the text has no white space at its ends *)
  assert (Es : strip (h ++ [space] ++ yyyy) = h ++ [space] ++ yyyy).
  { apply strip_clean.
    - apply lclean_app; [exact Hhne|]. destruct h as [|c h']; [exact I|].
      now apply Forall_cons_iff in Hhs.
    - rewrite app_assoc. apply rclean_app; [exact Hyne|].
      unfold rclean. apply Forall_rev in Hys.
      destruct (rev yyyy) as [|c l]; [exact I|].
      now apply Forall_cons_iff in Hys. }
  rewrite Es.
  assert (En : nonempty (h ++ [space] ++ yyyy) = true)
    by (destruct h; [contradiction | reflexivity]).
  rewrite En. cbn [negb].
  (* no comma to replace *)
  assert (Er : replace_char comma space (h ++ [space] ++ yyyy)
               = h ++ [space] ++ yyyy).
  { unfold replace_char. rewrite <- (map_id (h ++ [space] ++ yyyy)) at 2.
    apply map_ext_Forall. apply Forall_app. split; [|apply Forall_app; split].
    - revert Hh. apply Forall_impl. intros c (_ & Hc & _). now rewrite Hc.
    - now constructor.
    - revert Hyf. apply Forall_impl. intros c (_ & Hc & _). now rewrite Hc. }
  rewrite Er, split_ws_two by assumption.
  cbn [length Nat.ltb Nat.leb nth].
  (* the month word *)
  assert (Ew : Re.remove [Re.Chr (fun c => negb (isword c))] h = mon).
  { unfold Re.remove, Re.split. rewrite remove_class. cbn [rev app].
    unfold h. rewrite filter_app, filter_all, filter_none.
    - apply app_nil_r.
    - revert Hp. apply Forall_impl. intros c Hc.
      destruct (punct_facts c Hc) as (_ & _ & _ & Hw). now rewrite Hw.
    - revert Hal. apply Forall_impl. intros c Hc.
      destruct (alpha_facts c Hc) as (_ & _ & _ & _ & Hw). now rewrite Hw. }
  rewrite Ew, lower_basic_latin.
  2:{ revert Hal. apply Forall_impl. intros c Hc.
      now destruct (alpha_facts c Hc). }
  (* the year *)
  assert (Ey : Re.search (repeat (Re.Chr isdecimal) 4) (h ++ [space] ++ yyyy)
               = Some (length (h ++ [space]), 4%nat)).
  { rewrite app_assoc. cbn [repeat]. rewrite search_skip.
    - rewrite (search_here _ yyyy 4).
      + cbn [option_map fst snd]. now rewrite Nat.add_0_r.
      + pose proof (match_len_all isdecimal yyyy []) as H.
        rewrite app_nil_r, Hlen in H. apply H.
        revert Hyf. apply Forall_impl. tauto.
    - apply Forall_app. split.
      + revert Hh. apply Forall_impl. tauto.
      + constructor; [reflexivity | constructor]. }
  rewrite Ey, Hm. destruct month; [contradiction|]. cbn [nonempty negb].
  unfold Re.group0. cbn [fst snd]. f_equal.
  rewrite (app_assoc h), skipn_app, skipn_all, Nat.sub_diag. cbn [skipn app].
  rewrite <- Hlen. apply firstn_all.
Qed.

End MonthYear.

Lemma parse_month_year_reads_witness :
  exists month,
    lookup (map ascii_lower (u "Jan")) MONTH_MAP = Some month
    /\ In month month_numbers
    /\ @_parse_month_year basic_latin
         (VStr ((u "Jan" ++ u ".") ++ [space] ++ u "2025"))
       = (u "2025", month).
Proof.
  apply (@parse_month_year_reads basic_latin).
  - vm_compute. tauto.
  - repeat constructor.
  - reflexivity.
  - repeat constructor.
Defined.

(** X2.  The month and year parser returns both parts or none: two
    empty strings, or four decimal digits with the two-digit number of
    a month; a value that is not a string and a text of fewer than two
    words give two empty strings. *)
Theorem parse_month_year_all_or_nothing (U : Unicode) (v : value) :
  (_parse_month_year v = ([], [])
   \/ (length (fst (_parse_month_year v)) = 4%nat
       /\ Forall (fun c => isdecimal c = true) (fst (_parse_month_year v))
       /\ In (snd (_parse_month_year v)) month_numbers))
  /\ match v with
     | VStr s =>
         if (length (split_ws (replace_char comma space (strip s))) <? 2)%nat
         then _parse_month_year v = ([], [])
         else True
     | _ => _parse_month_year v = ([], [])
     end.
Proof.
  split; [apply parse_month_year_spec|].
  destruct v; try reflexivity. unfold _parse_month_year.
  destruct (negb (nonempty (strip s))); [now destruct (_ <? _)%nat|].
  now destruct (_ <? _)%nat.
Qed.

(** ** The fields of an entry *)

Lemma nonempty_map (A C : Type) (f : A -> C) l :
  nonempty (map f l) = nonempty l.
Proof. now destruct l. Qed.

Lemma append_entry_app out fields :
  append_entry out fields = out ++ append_entry [] fields.
Proof.
  unfold append_entry. destruct (nonempty _); [reflexivity|].
  now rewrite app_nil_r.
Qed.

Section EntryFields.
Context {U : Unicode} {B : Builtins}.

Lemma education_step_fields out e :
  education_step out (VDict e)
  = append_entry out
      [ (u "institution", VStr (str_field e "name"));
        (u "area",
         VStr (snd (_split_degree_title (VStr (str_field e "title")))));
        (u "studyType",
         VStr (fst (_split_degree_title (VStr (str_field e "title")))));
        (u "startDate",
         VStr (fst (_parse_date_range (VStr (str_field e "dates")))));
        (u "endDate",
         VStr (snd (_parse_date_range (VStr (str_field e "dates")))));
        (u "location", VStr (str_field e "location")) ].
Proof.
  unfold education_step, append_entry.
  destruct (_split_degree_title _) as [study_type area].
  destruct (_parse_date_range _) as [start_date end_date].
  cbv zeta. cbn [fst snd filter present].
  destruct (nonempty (str_field e "name")), (nonempty area),
    (nonempty study_type), (nonempty start_date), (nonempty end_date),
    (nonempty (str_field e "location")); reflexivity.
Qed.

Lemma experience_step_fields out e :
  match _bullet_texts e, tool_keywords (py_or (get e (u "tools")) (VList [])) with
  | Ok highlights, Ok keywords =>
      experience_step out (VDict e)
      = Ok (append_entry out
              [ (u "name", VStr (str_field e "name"));
                (u "position", VStr (str_field e "title"));
                (u "location", VStr (str_field e "location"));
                (u "startDate",
                 VStr (fst (_parse_date_range (VStr (str_field e "dates")))));
                (u "endDate",
                 VStr (snd (_parse_date_range (VStr (str_field e "dates")))));
                (u "highlights", strs highlights);
                (u "keywords", strs keywords) ])
  | Ok _, Raise err => experience_step out (VDict e) = Raise err
  | Raise err, _ => experience_step out (VDict e) = Raise err
  end.
Proof.
  unfold experience_step, append_entry.
  destruct (_parse_date_range _) as [start_date end_date].
  destruct (_bullet_texts e) as [highlights|]; cbn [bind]; [|reflexivity].
  destruct (tool_keywords _) as [keywords|]; cbn [bind]; [|reflexivity].
  cbv zeta. cbn [fst snd filter present strs]. rewrite !nonempty_map.
  destruct (nonempty (str_field e "name")), (nonempty (str_field e "title")),
    (nonempty (str_field e "location")), (nonempty start_date),
    (nonempty end_date), (nonempty highlights), (nonempty keywords);
    reflexivity.
Qed.

Lemma project_step_fields out e :
  match _bullet_texts e, tool_keywords (py_or (get e (u "tools")) (VList [])) with
  | Ok highlights, Ok keywords =>
      project_step out (VDict e)
      = Ok (append_entry out
              [ (u "name", VStr (str_field e "name"));
                (u "highlights", strs highlights);
                (u "startDate",
                 VStr (fst (_parse_date_range (VStr (str_field e "dates")))));
                (u "endDate",
                 VStr (snd (_parse_date_range (VStr (str_field e "dates")))));
                (u "keywords", strs keywords) ])
  | Ok _, Raise err => project_step out (VDict e) = Raise err
  | Raise err, _ => project_step out (VDict e) = Raise err
  end.
Proof.
  unfold project_step, append_entry.
  destruct (_parse_date_range _) as [start_date end_date].
  destruct (_bullet_texts e) as [highlights|]; cbn [bind]; [|reflexivity].
  destruct (tool_keywords _) as [keywords|]; cbn [bind]; [|reflexivity].
  cbv zeta. cbn [fst snd filter present strs]. rewrite !nonempty_map.
  destruct (nonempty (str_field e "name")), (nonempty highlights),
    (nonempty start_date), (nonempty end_date), (nonempty keywords);
    reflexivity.
Qed.

End EntryFields.

Lemma str_eqb_neq a b : a <> b -> str_eqb a b = false.
Proof.
  intros H. destruct (str_eqb a b) eqn:E; [|reflexivity].
  apply str_eqb_eq in E. contradiction.
Qed.

Lemma for_each_app (A C : Type) (body : C -> A -> result C) l1 : forall l2 acc,
  for_each body (l1 ++ l2) acc
  = (a <- for_each body l1 acc ;; for_each body l2 a).
Proof.
  induction l1 as [|x l1 IH]; intros l2 acc; cbn [app for_each bind];
    [reflexivity|].
  destruct (body acc x); cbn [bind]; [apply IH | reflexivity].
Qed.

Lemma for_each_shift (A C : Type) (body : list C -> A -> result (list C)) :
  (forall out x, body out x = (r <- body [] x ;; Ok (out ++ r))) ->
  forall l out,
    for_each body l out = (r <- for_each body l [] ;; Ok (out ++ r)).
Proof.
  intros Hb. induction l as [|x l IH]; intros out; cbn [for_each bind].
  - now rewrite app_nil_r.
  - rewrite (Hb out x). destruct (body [] x) as [r|e] eqn:E; cbn [bind];
      [|reflexivity].
    rewrite (IH (out ++ r)), (IH r).
    destruct (for_each body l []); cbn [bind]; [|reflexivity].
    now rewrite app_assoc.
Qed.

Section Entries.
Context {U : Unicode} {B : Builtins}.

Lemma education_step_shift out entry :
  education_step out entry = out ++ education_step [] entry.
Proof.
  destruct entry; try (now rewrite app_nil_r).
  rewrite !education_step_fields. apply append_entry_app.
Qed.

Lemma experience_step_shift out entry :
  experience_step out entry
  = (r <- experience_step [] entry ;; Ok (out ++ r)).
Proof.
  destruct entry; try (cbn; now rewrite app_nil_r).
  pose proof (experience_step_fields out d) as H1.
  pose proof (experience_step_fields [] d) as H2.
  destruct (_bullet_texts d); [destruct (tool_keywords _)|];
    rewrite H1, H2; cbn [bind]; try reflexivity.
  now rewrite append_entry_app.
Qed.

Lemma project_step_shift out entry :
  project_step out entry = (r <- project_step [] entry ;; Ok (out ++ r)).
Proof.
  destruct entry; try (cbn; now rewrite app_nil_r).
  pose proof (project_step_fields out d) as H1.
  pose proof (project_step_fields [] d) as H2.
  destruct (_bullet_texts d); [destruct (tool_keywords _)|];
    rewrite H1, H2; cbn [bind]; try reflexivity.
  now rewrite append_entry_app.
Qed.

Lemma py_or_list l : py_or (VList l) (VList []) = VList l.
Proof. now destruct l. Qed.

Lemma education_loop l : forall out,
  fold_left education_step l out = out ++ flat_map (education_step []) l.
Proof.
  induction l as [|x l IH]; intros out; cbn [fold_left flat_map].
  - now rewrite app_nil_r.
  - now rewrite IH, (education_step_shift out x), app_assoc.
Qed.

Lemma convert_education_list l :
  _convert_education (VList l) = Ok (flat_map (education_step []) l).
Proof.
  unfold _convert_education. rewrite py_or_list. cbn [iter bind].
  now rewrite education_loop.
Qed.

(** X7.  The entries of a section are converted one by one and
    independently: the conversion of two lists put end to end is the
    conversion of the first followed by that of the second, and it
    raises what the first of them to raise raises. *)
Theorem convert_entries_append (l1 l2 : list value) :
  _convert_education (VList (l1 ++ l2))
  = (a <- _convert_education (VList l1) ;;
     b <- _convert_education (VList l2) ;; Ok (a ++ b))
  /\ _convert_experience (VList (l1 ++ l2))
     = (a <- _convert_experience (VList l1) ;;
        b <- _convert_experience (VList l2) ;; Ok (a ++ b))
  /\ _convert_projects (VList (l1 ++ l2))
     = (a <- _convert_projects (VList l1) ;;
        b <- _convert_projects (VList l2) ;; Ok (a ++ b)).
Proof.
  split; [|split].
  - rewrite !convert_education_list. cbn [bind]. now rewrite flat_map_app.
  - unfold _convert_experience. rewrite !py_or_list. cbn [iter bind].
    rewrite for_each_app.
    destruct (for_each experience_step l1 []) as [a|]; cbn [bind];
      [|reflexivity].
    apply (for_each_shift _ _ experience_step experience_step_shift).
  - unfold _convert_projects. rewrite !py_or_list. cbn [iter bind].
    rewrite for_each_app.
    destruct (for_each project_step l1 []) as [a|]; cbn [bind];
      [|reflexivity].
    apply (for_each_shift _ _ project_step project_step_shift).
Qed.

End Entries.

(** ** The keys a converter reads *)

Lemma not_In_keys k l :
  forallb (fun x => negb (str_eqb x k)) l = true -> ~ In k l.
Proof.
  intros H Hin. rewrite forallb_forall in H. specialize (H k Hin).
  assert (E : str_eqb k k = true) by now apply str_eqb_eq.
  rewrite E in H. discriminate.
Qed.

Ltac other_key H :=
  apply str_eqb_neq; let E := fresh in
  intros E; apply H; rewrite E; cbn [In];
  repeat first [left; reflexivity | right].

Section KeysRead.
Context {U : Unicode} {B : Builtins}.

(** X8.  A converter reads the keys of its idiom and no other: an
    education entry depends on name, title, dates and location only
    (so the gpa is dropped), a work entry on name, title, location,
    dates, tools and bullets, a project entry on name, dates, tools and
    bullets (so its title and location are dropped), and the document
    on basics, education, experience, projects and skills. *)
Theorem converters_read_keys (k : str) (out : list value) (d : dict) :
  (~ In k [u "name"; u "title"; u "dates"; u "location"] ->
   education_step out (VDict (without k d)) = education_step out (VDict d))
  /\ (~ In k [u "name"; u "title"; u "location"; u "dates"; u "tools";
              u "bullets"] ->
      experience_step out (VDict (without k d))
      = experience_step out (VDict d))
  /\ (~ In k [u "name"; u "dates"; u "tools"; u "bullets"] ->
      project_step out (VDict (without k d)) = project_step out (VDict d))
  /\ (~ In k [u "basics"; u "education"; u "experience"; u "projects";
              u "skills"] ->
      resume_of (VDict (without k d)) = resume_of (VDict d)).
Proof.
  repeat split; intros H.
  - unfold education_step, str_field.
    rewrite !get_without by other_key H. reflexivity.
  - unfold experience_step, _bullet_texts, str_field.
    rewrite !get_without by other_key H. reflexivity.
  - unfold project_step, _bullet_texts, str_field.
    rewrite !get_without by other_key H. reflexivity.
  - unfold resume_of. rewrite !get_without by other_key H. reflexivity.
Qed.

End KeysRead.

Lemma converters_read_keys_witness :
  let d := [(u "name", VStr (u "Rutgers")); (u "gpa", VStr (u "3.9"))] in
  (~ In (u "gpa") [u "name"; u "title"; u "dates"; u "location"]
   /\ @education_step basic_latin bare_builtins [] (VDict (without (u "gpa") d))
      = @education_step basic_latin bare_builtins [] (VDict d))
  /\ (~ In (u "gpa") [u "name"; u "title"; u "location"; u "dates"; u "tools";
                      u "bullets"]
      /\ @experience_step basic_latin bare_builtins []
           (VDict (without (u "gpa") d))
         = @experience_step basic_latin bare_builtins [] (VDict d))
  /\ (~ In (u "gpa") [u "name"; u "dates"; u "tools"; u "bullets"]
      /\ @project_step basic_latin bare_builtins []
           (VDict (without (u "gpa") d))
         = @project_step basic_latin bare_builtins [] (VDict d))
  /\ (~ In (u "gpa") [u "basics"; u "education"; u "experience"; u "projects";
                      u "skills"]
      /\ @resume_of basic_latin bare_builtins (VDict (without (u "gpa") d))
         = @resume_of basic_latin bare_builtins (VDict d)).
Proof.
  intros d.
  pose proof (@converters_read_keys basic_latin bare_builtins (u "gpa") [] d)
    as (H1 & H2 & H3 & H4).
  assert (N1 : ~ In (u "gpa") [u "name"; u "title"; u "dates"; u "location"])
    by (apply not_In_keys; reflexivity).
  assert (N2 : ~ In (u "gpa") [u "name"; u "title"; u "location"; u "dates";
                               u "tools"; u "bullets"])
    by (apply not_In_keys; reflexivity).
  assert (N3 : ~ In (u "gpa") [u "name"; u "dates"; u "tools"; u "bullets"])
    by (apply not_In_keys; reflexivity).
  assert (N4 : ~ In (u "gpa") [u "basics"; u "education"; u "experience";
                               u "projects"; u "skills"])
    by (apply not_In_keys; reflexivity).
  exact (conj (conj N1 (H1 N1))
           (conj (conj N2 (H2 N2)) (conj (conj N3 (H3 N3)) (conj N4 (H4 N4))))).
Defined.

(** ** The basics *)

Section Basics.
Context {U : Unicode} {B : Builtins}.

Lemma parse_link_profile_cases url :
  _parse_link_profile (VStr url) = VNone
  \/ exists network username,
       _parse_link_profile (VStr url) = profile network username (strip url).
Proof.
  unfold _parse_link_profile.
  destruct (negb (nonempty (strip url))); [now left|].
  right. eexists. eexists. reflexivity.
Qed.

Lemma parse_city_region_no_city s :
  nonempty (fst (_parse_city_region (VStr s)))
  || nonempty (snd (_parse_city_region (VStr s)))
  = nonempty (fst (_parse_city_region (VStr s))).
Proof.
  destruct (_parse_city_region (VStr s)) as [city region] eqn:E.
  cbn [fst snd]. pose proof (parse_city_region_city s city region E) as H.
  destruct (nonempty city); [reflexivity|].
  destruct (nonempty region); [|reflexivity].
  specialize (H eq_refl). discriminate.
Qed.

(** X10.  The basics of the output begin with the name, always, and
    go on with those of email, phone, url (the website), location and
    profiles that are not empty, in this order; the location is there
    exactly when the location of the input has a city; the profiles
    are that of the linkedin field, then that of the github field;
    basics that are not a dict count as empty. *)
Theorem convert_basics_fields (basics : value) :
  let d := match basics with VDict d => d | _ => [] end in
  let location := _parse_city_region (VStr (str_field d "location")) in
  let profiles :=
    flat_map
      (fun url =>
         match _parse_link_profile (VStr url) with
         | VNone => []
         | p => [p]
         end)
      [str_field d "linkedin"; str_field d "github"] in
  _convert_basics basics
  = (u "name", VStr (str_field d "name"))
    :: item_if (nonempty (str_field d "email")) "email"
         (VStr (str_field d "email"))
    ++ item_if (nonempty (str_field d "phone")) "phone"
         (VStr (str_field d "phone"))
    ++ item_if (nonempty (str_field d "website")) "url"
         (VStr (str_field d "website"))
    ++ item_if (nonempty (fst location)) "location"
         (VDict [ (u "city", VStr (fst location));
                  (u "region", VStr (snd location)) ])
    ++ item_if (nonempty profiles) "profiles" (VList profiles).
Proof.
  intros d location profiles. subst location profiles.
  unfold _convert_basics. fold d.
  pose proof (parse_city_region_no_city (str_field d "location")) as Hc.
  destruct (_parse_city_region (VStr (str_field d "location")))
    as [city region]. cbn [fst snd] in *. cbv zeta. rewrite Hc.
  cbn [fold_left flat_map].
  destruct (parse_link_profile_cases (str_field d "linkedin"))
    as [E1 | (n1 & u1 & E1)];
    destruct (parse_link_profile_cases (str_field d "github"))
      as [E2 | (n2 & u2 & E2)];
    rewrite E1, E2; cbn [truthy profile nonempty app];
    destruct (nonempty (str_field d "email")),
      (nonempty (str_field d "phone")), (nonempty (str_field d "website")),
      (nonempty city); reflexivity.
Qed.

End Basics.

(** ** The dates of the output *)

(** X11.  As far as the lower case of a code point above U+2014 has no
    letter of a month word, the date range parser returns two empty
    strings whatever the input. *)
Theorem date_range_never_parsed (U : Unicode) (dates : value) :
  lower_above_has_no_month_letter U ->
  _parse_date_range dates = ([], []).
Proof. intros H. now apply parse_date_range_never_a_date. Qed.

Lemma date_range_never_parsed_witness :
  lower_above_has_no_month_letter basic_latin
  /\ @_parse_date_range basic_latin (VStr (u "Jan. 2025 - May. 2025"))
     = ([], []).
Proof.
  split; [exact lower_above_basic_latin|].
  exact (date_range_never_parsed basic_latin _ lower_above_basic_latin).
Defined.

Lemma Ok_inj (A : Type) (a b : A) : Ok a = Ok b -> a = b.
Proof. now intros [= ->]. Qed.

Lemma Raise_not_Ok (A : Type) (e : exn) (a : A) : Raise e = Ok a -> False.
Proof. discriminate. Qed.

Section NoDates.
Context {U : Unicode} {B : Builtins}.
Hypothesis lower_above : lower_above_has_no_month_letter U.

Lemma append_entry_no_dates out fields :
  Forall no_dates out ->
  lookup (u "startDate") (filter present fields) = None ->
  lookup (u "endDate") (filter present fields) = None ->
  Forall no_dates (append_entry out fields).
Proof.
  intros Hout Hs He. unfold append_entry.
  destruct (nonempty _); [|exact Hout].
  apply Forall_app. split; [exact Hout|]. constructor; [|constructor].
  now split.
Qed.

Lemma education_step_no_dates out entry :
  Forall no_dates out -> Forall no_dates (education_step out entry).
Proof.
  intros Hout. destruct entry; try exact Hout.
  rewrite education_step_fields.
  rewrite (parse_date_range_never_a_date lower_above). cbn [fst snd].
  apply append_entry_no_dates; [exact Hout| |];
    cbn [filter present snd nonempty];
    destruct (nonempty (str_field d "name")),
      (nonempty (snd (_split_degree_title (VStr (str_field d "title"))))),
      (nonempty (fst (_split_degree_title (VStr (str_field d "title"))))),
      (nonempty (str_field d "location")); reflexivity.
Qed.

Lemma experience_step_no_dates out entry out' :
  Forall no_dates out -> experience_step out entry = Ok out' ->
  Forall no_dates out'.
Proof.
  intros Hout. destruct entry as [| | | | | |d].
  1-6: (intros [= <-]; exact Hout).
  pose proof (experience_step_fields out d) as H.
  destruct (_bullet_texts d) as [highlights|];
    [destruct (tool_keywords _) as [keywords|]|]; rewrite H;
    intros E; try (now apply Raise_not_Ok in E).
  apply Ok_inj in E. subst out'.
  rewrite (parse_date_range_never_a_date lower_above). cbn [fst snd].
  apply append_entry_no_dates; [exact Hout| |];
    cbn [filter present snd nonempty strs]; rewrite !nonempty_map;
    destruct (nonempty (str_field d "name")),
      (nonempty (str_field d "title")), (nonempty (str_field d "location")),
      (nonempty highlights), (nonempty keywords); reflexivity.
Qed.

Lemma project_step_no_dates out entry out' :
  Forall no_dates out -> project_step out entry = Ok out' ->
  Forall no_dates out'.
Proof.
  intros Hout. destruct entry as [| | | | | |d].
  1-6: (intros [= <-]; exact Hout).
  pose proof (project_step_fields out d) as H.
  destruct (_bullet_texts d) as [highlights|];
    [destruct (tool_keywords _) as [keywords|]|]; rewrite H;
    intros E; try (now apply Raise_not_Ok in E).
  apply Ok_inj in E. subst out'.
  rewrite (parse_date_range_never_a_date lower_above). cbn [fst snd].
  apply append_entry_no_dates; [exact Hout| |];
    cbn [filter present snd nonempty strs]; rewrite !nonempty_map;
    destruct (nonempty (str_field d "name")),
      (nonempty highlights), (nonempty keywords); reflexivity.
Qed.

Lemma resume_of_no_dates data :
  match resume_of data with
  | Ok doc =>
      exists basics work education skills projects,
        doc = document basics work education skills projects
        /\ Forall no_dates work
        /\ Forall no_dates education
        /\ Forall no_dates projects
  | Raise _ => True
  end.
Proof.
  destruct data; try exact I. unfold resume_of. cbv zeta.
  destruct (_convert_education _) as [education|] eqn:Ee; cbn [bind];
    [|exact I].
  destruct (_convert_experience _) as [work|] eqn:Ew; cbn [bind]; [|exact I].
  destruct (_convert_projects _) as [projects|] eqn:Ep; cbn [bind]; [|exact I].
  do 5 eexists. split; [reflexivity|]. repeat split.
  - unfold _convert_experience in Ew.
    destruct (iter _) as [items|]; cbn [bind] in Ew; [|discriminate].
    revert Ew. apply (for_each_invariant _ _ (Forall no_dates));
      [|constructor].
    intros acc x acc'. apply experience_step_no_dates.
  - unfold _convert_education in Ee.
    destruct (iter _) as [items|]; cbn [bind] in Ee; [|discriminate].
    injection Ee as <-. apply fold_left_invariant; [|constructor].
    intros acc x. apply education_step_no_dates.
  - unfold _convert_projects in Ep.
    destruct (iter _) as [items|]; cbn [bind] in Ep; [|discriminate].
    revert Ep. apply (for_each_invariant _ _ (Forall no_dates));
      [|constructor].
    intros acc x acc'. apply project_step_no_dates.
Qed.

End NoDates.

(** X12.  Under the same condition no entry of work, education or
    projects of a document the assembler returns has a startDate or an
    endDate. *)
Theorem document_has_no_dates (U : Unicode) (B : Builtins) (data : value) :
  lower_above_has_no_month_letter U ->
  match resume_of data with
  | Ok doc =>
      exists basics work education skills projects,
        doc = document basics work education skills projects
        /\ Forall no_dates work
        /\ Forall no_dates education
        /\ Forall no_dates projects
  | Raise _ => True
  end.
Proof. intros H. now apply resume_of_no_dates. Qed.

Lemma document_has_no_dates_witness :
  lower_above_has_no_month_letter basic_latin
  /\ match @resume_of basic_latin bare_builtins
             (VDict [(u "education",
                      VList [VDict [(u "name", VStr (u "Rutgers"));
                                    (u "dates",
                                     VStr (u "Sep 2019 - May 2023"))]])]) with
     | Ok doc =>
         exists basics work education skills projects,
           doc = document basics work education skills projects
           /\ Forall no_dates work
           /\ Forall no_dates education
           /\ Forall no_dates projects
     | Raise _ => True
     end.
Proof.
  split; [exact lower_above_basic_latin|].
  exact (document_has_no_dates basic_latin bare_builtins
           (VDict [(u "education",
                    VList [VDict [(u "name", VStr (u "Rutgers"));
                                  (u "dates",
                                   VStr (u "Sep 2019 - May 2023"))]])])
           lower_above_basic_latin).
Defined.

(** ** The tailored entry of [modify_resume_info] *)

(** X17.  The tools of a tailored entry are those of the entry of the
    base resume (the empty list when it has none) whatever the model
    answered, and every other key is as the model answered; when the
    decoder raises on the answer its error is raised, a base entry
    that is not a dict raises AttributeError and an answer that is not
    a dict TypeError. *)
Theorem tailored_entry_tools (B : Builtins) (entry_response : str)
    (entry : value) :
  match json_loads entry_response, entry with
  | Raise e, _ => tailored_entry entry_response entry = Raise e
  | Ok (VDict answer), VDict base =>
      exists tailored,
        tailored_entry entry_response entry = Ok (VDict tailored)
        /\ forall k,
             get tailored k
             = if str_eqb (u "tools") k
               then get_default base (u "tools") (VList [])
               else get answer k
  | Ok _, VDict _ => tailored_entry entry_response entry = Raise TypeError
  | Ok _, _ => tailored_entry entry_response entry = Raise AttributeError
  end.
Proof.
  unfold tailored_entry.
  destruct (json_loads entry_response) as [answer|]; [|reflexivity].
  cbn [bind].
  destruct entry; destruct answer; try reflexivity.
  eexists. split; [reflexivity|]. intros k. unfold get.
  rewrite lookup_setitem. now destruct (str_eqb (u "tools") k).
Qed.
